(** * Batch search clients: a shallow embedding of the three scripts

    - [search_grant_links_google.py]  (module [GrantLinks])
    - [api_demo.py]                   (module [ApiDemo])
    - [test_continuous_operation.py]  (module [ContinuousOperation])

    Python values are embedded as follows.  A [str] is the list of its code
    points, restricted to code points below 256 (one [ascii] each).  A parsed
    JSON document is a [json] tree.  Python exceptions are the constructors of
    [exn]; a computation that can raise returns [exn + A].  The network is an
    oracle that answers every request with an [http_outcome].  Python floats
    (elapsed seconds, rates) are embedded as exact rationals [Q]. *)

From Stdlib Require Import List Ascii String Bool ZArith QArith Qminmax Lia.
From Stdlib Require Import Permutation Sorted.
Import ListNotations.

Set Implicit Arguments.

(* ------------------------------------------------------------------------- *)
(** ** Python strings *)

Module PyStr.

Definition str := list ascii.

(** A literal of the source. *)
Definition lit (s : string) : str := list_ascii_of_string s.

Definition code (c : ascii) : N := N_of_ascii c.

(** [str.isspace] on one code point below 256: TAB..CR, FS..US, space,
    NEL (0x85) and NBSP (0xA0). *)
Definition isspace (c : ascii) : bool :=
  let n := code c in
  (((9 <=? n) && (n <=? 13)) || ((28 <=? n) && (n <=? 32))
   || (n =? 133) || (n =? 160))%N.

(** [str.lower] on one code point below 256: A..Z and the Latin-1 capitals
    0xC0..0xDE except the multiplication sign 0xD7. *)
Definition lower_char (c : ascii) : ascii :=
  let n := code c in
  if (((65 <=? n) && (n <=? 90))
      || ((192 <=? n) && (n <=? 222) && negb (n =? 215)))%N
  then ascii_of_N (n + 32) else c.

Definition lower (s : str) : str := map lower_char s.

Fixpoint lstrip (s : str) : str :=
  match s with
  | [] => []
  | c :: s' => if isspace c then lstrip s' else s
  end.

Definition rstrip (s : str) : str := rev (lstrip (rev s)).

(** [s.strip()] *)
Definition strip (s : str) : str := rstrip (lstrip s).

Fixpoint startswith (s p : str) : bool :=
  match p, s with
  | [], _ => true
  | _ :: _, [] => false
  | a :: p', b :: s' => Ascii.eqb a b && startswith s' p'
  end.

(** [s.endswith(p)] *)
Definition endswith (s p : str) : bool := startswith (rev s) (rev p).

(** [p in s] *)
Fixpoint contains (s p : str) : bool :=
  startswith s p ||
  match s with
  | [] => false
  | _ :: s' => contains s' p
  end.

Fixpoint str_eqb (a b : str) : bool :=
  match a, b with
  | [], [] => true
  | x :: a', y :: b' => Ascii.eqb x y && str_eqb a' b'
  | _, _ => false
  end.

(** [a < b] on strings: lexicographic on code points. *)
Fixpoint str_ltb (a b : str) : bool :=
  match a, b with
  | _, [] => false
  | [], _ :: _ => true
  | x :: a', y :: b' =>
      (code x <? code y)%N || ((code x =? code y)%N && str_ltb a' b')
  end.

(** [s.split()]: the maximal runs of non-whitespace characters.  [cur] is the
    run being read, most recent character first. *)
Fixpoint split_from (cur : str) (s : str) : list str :=
  match s with
  | [] => match cur with [] => [] | _ => [rev cur] end
  | c :: s' =>
      if isspace c
      then match cur with
           | [] => split_from [] s'
           | _ => rev cur :: split_from [] s'
           end
      else split_from (c :: cur) s'
  end.

Definition split (s : str) : list str := split_from [] s.

(** [s.replace(old, new)] for a non-empty [old], scanning from the left:
    [skip] characters of an occurrence just replaced are still to be passed. *)
Fixpoint replace_from (skip : nat) (s old new : str) : str :=
  match s with
  | [] => []
  | c :: s' =>
      match skip with
      | S k => replace_from k s' old new
      | O =>
          if startswith s old
          then new ++ replace_from (List.length old - 1) s' old new
          else c :: replace_from 0 s' old new
      end
  end.

(** [s.replace(old, new)]; an empty [old] matches before every character
    and at the end. *)
Definition replace (s old new : str) : str :=
  match old with
  | [] => new ++ flat_map (fun c => c :: new) s
  | _ :: _ => replace_from 0 s old new
  end.

End PyStr.
Export PyStr.

(* ------------------------------------------------------------------------- *)
(** ** Python run time: exceptions, JSON values, HTTP outcomes *)

Module Py.

(** The exception classes the three scripts can meet.  Asynchronous
    interrupts ([KeyboardInterrupt]) are outside the model. *)
Inductive exn : Type :=
| Timeout            (* requests.exceptions.Timeout *)
| ConnectionError    (* requests.exceptions.ConnectionError *)
| HTTPError          (* requests.exceptions.HTTPError, from raise_for_status *)
| JSONDecodeError    (* requests.exceptions.JSONDecodeError, from Response.json *)
| AttributeError
| TypeError
| ZeroDivisionError
| OtherException.    (* any other subclass of Exception *)

(** [isinstance(e, requests.RequestException)].  [Response.json] raises
    requests' own [JSONDecodeError], a subclass of [InvalidJSONError] and so
    of [RequestException] (requests 2.27 and later). *)
Definition is_RequestException (e : exn) : bool :=
  match e with
  | Timeout | ConnectionError | HTTPError | JSONDecodeError => true
  | _ => false
  end.

Definition is_Timeout (e : exn) : bool :=
  match e with Timeout => true | _ => false end.

(** [str(e)], kept abstract up to the class of the exception. *)
Definition str_of_exn (e : exn) : str :=
  match e with
  | Timeout => lit "Timeout"
  | ConnectionError => lit "ConnectionError"
  | HTTPError => lit "HTTPError"
  | JSONDecodeError => lit "JSONDecodeError"
  | AttributeError => lit "AttributeError"
  | TypeError => lit "TypeError"
  | ZeroDivisionError => lit "division by zero"
  | OtherException => lit "Exception"
  end.

(** A computation that returns an [A] or raises. *)
Definition Exc (A : Type) : Type := (exn + A)%type.

Definition retE {A} (a : A) : Exc A := inr a.
Definition raiseE {A} (e : exn) : Exc A := inl e.
Definition bindE {A B} (m : Exc A) (k : A -> Exc B) : Exc B :=
  match m with
  | inl e => inl e
  | inr a => k a
  end.

(** A computation over a mutable store [S]: the store survives a raise. *)
Definition St (S A : Type) : Type := S -> S * Exc A.

Definition retS {S A} (a : A) : St S A := fun s => (s, inr a).
Definition raiseS {S A} (e : exn) : St S A := fun s => (s, inl e).
Definition bindS {S A B} (m : St S A) (k : A -> St S B) : St S B :=
  fun s => match m s with
           | (s', inl e) => (s', inl e)
           | (s', inr a) => k a s'
           end.
Definition liftE {S A} (m : Exc A) : St S A := fun s => (s, m).
Definition modify {S} (f : S -> S) : St S unit := fun s => (f s, inr tt).
Definition read {S A} (f : S -> A) : St S A := fun s => (s, inr (f s)).

(** [try: body / except ...: handler].  [handler e] is [None] when no
    [except] clause matches [e], which then propagates. *)
Definition try_except {S A} (body : St S A) (handler : exn -> option (St S A))
  : St S A :=
  fun s => match body s with
           | (s', inr a) => (s', inr a)
           | (s', inl e) => match handler e with
                            | Some h => h s'
                            | None => (s', inl e)
                            end
           end.

Declare Scope exc_scope.
Delimit Scope exc_scope with E.
Declare Scope st_scope.
Delimit Scope st_scope with S.

Notation "x <- m ;; k" := (bindE m (fun x => k))
  (at level 61, m at next level, right associativity) : exc_scope.
Notation "x <- m ;; k" := (bindS m (fun x => k))
  (at level 61, m at next level, right associativity) : st_scope.
Notation "m ;; k" := (bindS m (fun _ => k))
  (at level 61, right associativity) : st_scope.

(** [for x in xs: body] with a body that can raise. *)
Fixpoint for_each {S A} (xs : list A) (body : A -> St S unit) : St S unit :=
  match xs with
  | [] => retS tt
  | x :: xs' => (body x ;; for_each xs' body)%S
  end.

(** A loop that also updates a local variable [acc]. *)
Fixpoint fold_each {S A B} (xs : list A) (acc : B) (body : A -> B -> St S B)
  : St S B :=
  match xs with
  | [] => retS acc
  | x :: xs' => (acc' <- body x acc ;; fold_each xs' acc' body)%S
  end.

(** [m] leaves the part [f] of the store as it found it, whether it returns
    or raises. *)
Definition keeps {S X A} (f : S -> X) (m : St S A) : Prop :=
  forall s, f (fst (m s)) = f s.

(** A list comprehension [[f(x) for x in xs]] with an [f] that can raise. *)
Fixpoint mapE {A B} (f : A -> Exc B) (xs : list A) : Exc (list B) :=
  match xs with
  | [] => retE []
  | x :: xs' => (y <- f x ;; ys <- mapE f xs' ;; retE (y :: ys))%E
  end.

(** A value produced by [json.loads].  Numbers are integers; a [JObj] lists
    the items of the parsed dict in iteration order. *)
#[local] Unset Elimination Schemes.
Inductive json : Type :=
| JNull
| JBool (b : bool)
| JNum (n : Z)
| JStr (s : str)
| JArr (l : list json)
| JObj (kv : list (str * json)).
#[local] Set Elimination Schemes.

Definition nonempty {A} (l : list A) : bool :=
  match l with [] => false | _ :: _ => true end.

(** [bool(v)] *)
Definition truthy (v : json) : bool :=
  match v with
  | JNull => false
  | JBool b => b
  | JNum n => negb (n =? 0)%Z
  | JStr s => nonempty s
  | JArr l => nonempty l
  | JObj kv => nonempty kv
  end.

Fixpoint assoc {V} (k : str) (kv : list (str * V)) : option V :=
  match kv with
  | [] => None
  | (k', v) :: kv' => if str_eqb k k' then Some v else assoc k kv'
  end.

(** [v.get(k, default)]: only a dict has the method. *)
Definition get (v : json) (k : str) (default : json) : Exc json :=
  match v with
  | JObj kv => retE (match assoc k kv with Some x => x | None => default end)
  | _ => raiseE AttributeError
  end.

(** The elements [for x in v] visits. *)
Definition iter (v : json) : Exc (list json) :=
  match v with
  | JArr l => retE l
  | JStr s => retE (map (fun c => JStr [c]) s)
  | JObj kv => retE (map (fun p => JStr (fst p)) kv)
  | JNull | JBool _ | JNum _ => raiseE TypeError
  end.

(** [len(v)] *)
Definition len (v : json) : Exc Z :=
  match v with
  | JArr l => retE (Z.of_nat (List.length l))
  | JStr s => retE (Z.of_nat (List.length s))
  | JObj kv => retE (Z.of_nat (List.length kv))
  | JNull | JBool _ | JNum _ => raiseE TypeError
  end.

(** What [requests] hands back for one request.  The body is modelled by
    what [Response.json] makes of it: a JSON value, or the decoding error
    [requests] raises for a text that is not a JSON document.  A JSON text
    on which the decoder itself gives up (an integer literal beyond the digit
    limit: [ValueError]; nesting beyond the recursion limit:
    [RecursionError]) is not represented. *)
Record response : Type := {
  status_code : Z;
  text : str;
  parsed : option json;   (* [None]: the body is not a JSON document *)
}.

(** One request: either the call raises, or a response arrives after
    [elapsed] seconds. *)
Inductive http_outcome : Type :=
| Raises (e : exn)
| Responds (r : response) (elapsed : Q).

Definition requests_result (o : http_outcome) : Exc response :=
  match o with
  | Raises e => raiseE e
  | Responds r _ => retE r
  end.

(** [response.json()] *)
Definition response_json (r : response) : Exc json :=
  match parsed r with
  | Some v => retE v
  | None => raiseE JSONDecodeError
  end.

(** [response.raise_for_status()] *)
Definition raise_for_status (r : response) : Exc unit :=
  if ((400 <=? status_code r) && (status_code r <? 600))%Z
  then raiseE HTTPError else retE tt.

(** [m] keeps the property [P] of the store, whether it returns or raises. *)
Definition preserves {S A} (P : S -> Prop) (m : St S A) : Prop :=
  forall s, P s -> P (fst (m s)).

(** [for x in xs: body] without a store. *)
Fixpoint iterE {A} (xs : list A) (body : A -> Exc unit) : Exc unit :=
  match xs with
  | [] => retE tt
  | x :: xs' => (_ <- body x ;; iterE xs' body)%E
  end.

(** [k in v] for a string [k]: a key of a dict, an element of a list, a
    substring of a string. *)
Definition py_in (k : str) (v : json) : Exc bool :=
  match v with
  | JObj kv => retE (existsb (fun p => str_eqb k (fst p)) kv)
  | JArr l => retE (existsb (fun x => match x with
                                      | JStr s => str_eqb k s
                                      | _ => false
                                      end) l)
  | JStr s => retE (contains s k)
  | JNull | JBool _ | JNum _ => raiseE TypeError
  end.

(** [v[k]] for a string [k]: only a dict takes one; a missing key is a
    [KeyError], which is one of the other exceptions. *)
Definition subscript (v : json) (k : str) : Exc json :=
  match v with
  | JObj kv => match assoc k kv with
               | Some x => retE x
               | None => raiseE OtherException
               end
  | _ => raiseE TypeError
  end.

(** [v.keys()]: only a dict has the method. *)
Definition keys (v : json) : Exc (list str) :=
  match v with
  | JObj kv => retE (map fst kv)
  | _ => raiseE AttributeError
  end.

(** The elements of [v[:n]].  A dict cannot be sliced: [TypeError] (a
    [KeyError] from Python 3.12 on). *)
Definition slice_to (n : nat) (v : json) : Exc (list json) :=
  match v with
  | JArr l => retE (firstn n l)
  | JStr s => retE (map (fun c => JStr [c]) (firstn n s))
  | JObj _ | JNull | JBool _ | JNum _ => raiseE TypeError
  end.

(** A JSON value that is no container: null, a boolean or a number. *)
Definition is_scalar (v : json) : bool :=
  match v with
  | JNull | JBool _ | JNum _ => true
  | _ => false
  end.

(** The client gets no usable reply: the request raises a
    [RequestException], or the status is 4xx or 5xx, or the body is not
    JSON. *)
Definition request_failed (o : http_outcome) : bool :=
  match o with
  | Raises e => is_RequestException e
  | Responds r _ =>
      ((400 <=? status_code r) && (status_code r <? 600))%Z
      || match parsed r with None => true | Some _ => false end
  end.

End Py.
Export Py.

(* ------------------------------------------------------------------------- *)
(** ** search_grant_links_google.py *)

Module GrantLinks.

(** [clean_grant_name], lines 26-31. *)
Definition clean_grant_name (grant_name : str) : str :=
  let grant_name := strip grant_name in
  if endswith (lower grant_name) (lit "grant")
     || contains (lower grant_name) (lit " grant ")
  then grant_name
  else grant_name ++ lit " grant".

(** The wording of the specification, section 4.1: the lowercased text
    "contains the required term as a standalone word".  A word is a maximal
    run of non-whitespace characters. *)
Definition spec_standalone_word (term text : str) : bool :=
  existsb (str_eqb term) (split text).

(** The normalizer as the specification words it. *)
Definition spec_normalize (raw : str) : str :=
  let t := strip raw in
  if endswith (lower t) (lit "grant")
     || spec_standalone_word (lit "grant") (lower t)
  then t
  else t ++ lit " grant".

(** *** The client and the batch runner *)

Section Runner.

(** The network: the answer to the request made after [n] earlier requests
    of the run, for the query it carries. *)
Variable requests_get : nat -> str -> http_outcome.

(** The [try] block of [search_grant_google], lines 39-60. *)
Definition search_grant_google_try (n : nat) (query : str) : Exc (list json) :=
  (response <- requests_result (requests_get n query) ;;
   if (status_code response =? 200)%Z then
     data <- response_json response ;;
     items <- get data (lit "items") (JArr []) ;;
     if truthy items then
       each <- iter items ;;
       links <- mapE (fun item => get item (lit "link") (JStr [])) each ;;
       retE (filter truthy links)
     else retE []
   else retE [])%E.

(** [search_grant_google], lines 34-64: [except Exception] returns []. *)
Definition search_grant_google (n : nat) (query : str) : list json :=
  match search_grant_google_try n query with
  | inr links => links
  | inl _ => []
  end.

(** A row handed out by [csv.DictReader]: a dict from column names to cells;
    a cell is [None] when the line is shorter than the header. *)
Definition dict_row : Type := list (str * option str).

(** [row.get('grant_name', '')]: the cell, which may be [None]. *)
Definition row_get (row : dict_row) (k : str) (default : str) : option str :=
  match assoc k row with
  | Some cell => cell
  | None => Some default
  end.

(** A row given to [csv.writer.writerow]. *)
Definition csv_row : Type := list json.

Definition header : csv_row :=
  [JStr (lit "grant_name"); JStr (lit "search_query"); JStr (lit "link")].

(** What [main] owns while it loops: for each of the two writers the rows
    handed to it so far, and the counter.  The layer below the writers is
    not modelled: the encoding of a row to the file, and what the two files
    hold when both names are one path (an output name without ".csv"). *)
Record sinks : Type := {
  out_csv : list csv_row;
  out_csv_full : list csv_row;
  query_count : nat;
}.

Definition writerow (row : csv_row) : St sinks unit :=
  modify (fun s => {| out_csv := out_csv s ++ [row];
                      out_csv_full := out_csv_full s;
                      query_count := query_count s |}).

Definition writerow_full (row : csv_row) : St sinks unit :=
  modify (fun s => {| out_csv := out_csv s;
                      out_csv_full := out_csv_full s ++ [row];
                      query_count := query_count s |}).

Definition count_query : St sinks unit :=
  modify (fun s => {| out_csv := out_csv s;
                      out_csv_full := out_csv_full s;
                      query_count := S (query_count s) |}).

(** [row.get('grant_name', '').strip()]: [None] has no [strip]. *)
Definition read_grant_name (row : dict_row) : Exc str :=
  match row_get row (lit "grant_name") [] with
  | Some cell => retE (strip cell)
  | None => raiseE AttributeError
  end.

(** The test of line 112. *)
Definition skipped (grant_name : str) : bool :=
  negb (nonempty grant_name) || str_eqb (lower grant_name) (lit "grant_name").

(** One turn of the loop of [main], lines 108-139. *)
Definition process_row (row : dict_row) : St sinks unit :=
  (grant_name <- liftE (read_grant_name row) ;;
   if skipped grant_name then retS tt
   else
     let search_query := clean_grant_name grant_name in
     n <- read query_count ;;
     let all_links := search_grant_google n search_query in
     count_query ;;
     match all_links with
     | top :: _ =>
         writerow [JStr grant_name; JStr search_query; top] ;;
         for_each all_links
           (fun link => writerow_full [JStr grant_name; JStr search_query; link])
     | [] =>
         writerow [JStr grant_name; JStr search_query; JStr []]
     end)%S.

Definition main_loop (rows : list dict_row) : St sinks unit :=
  for_each rows process_row.

Definition opened : sinks :=
  {| out_csv := [header]; out_csv_full := [header]; query_count := 0 |}.

(** [main], lines 67-145.  [input] is [None] when the input file does not
    exist, else its rows.  The result is what the two writers were handed,
    [None] when the output files were never opened, and how [main] ended. *)
Definition main (input : option (list dict_row)) : option sinks * Exc unit :=
  match input with
  | None => (None, retE tt)
  | Some rows => let (s, r) := main_loop rows opened in (Some s, r)
  end.

(** The script as a process, lines 15-23 and 148-149: the exit status and the
    output files.  An exception that leaves [main] ends the process with
    status 1. *)
Definition script (credentials : bool) (input : option (list dict_row))
  : Z * option sinks :=
  if negb credentials then (1%Z, None)
  else match main input with
       | (files, inr _) => (0%Z, files)
       | (files, inl _) => (1%Z, files)
       end.

(** The backend call itself failed: it raised, answered with a status other
    than 200, or sent a body that is not JSON. *)
Definition backend_error (o : http_outcome) : Prop :=
  match o with
  | Raises _ => True
  | Responds r _ => status_code r <> 200%Z \/ parsed r = None
  end.

(** The name of the second output file, line 85. *)
Definition output_file_full (output_file : str) : str :=
  replace output_file (lit ".csv") (lit "_full.csv").

(** The record leads to a query: its name can be read and is not skipped. *)
Definition is_searched (row : dict_row) : bool :=
  match read_grant_name row with
  | inr g => negb (skipped g)
  | inl _ => false
  end.

(** The record has its [grant_name] cell, or no such column at all. *)
Definition readable (row : dict_row) : bool :=
  match read_grant_name row with
  | inr _ => true
  | inl _ => false
  end.

Definition is_obj (v : json) : bool :=
  match v with JObj _ => true | _ => false end.

(** [item.get('link', '')] on an item that is a dict. *)
Definition link_of (item : json) : json :=
  match item with
  | JObj kv => match assoc (lit "link") kv with
               | Some l => l
               | None => JStr []
               end
  | _ => JStr []
  end.

(** The third cell of an output row. *)
Definition link_cell (row : csv_row) : json := nth 2 row JNull.

(** Every row of the best-result file with a link is a row of the full
    file. *)
Definition best_in_full (s : sinks) : Prop :=
  forall row, In row (out_csv s) ->
              link_cell row = JStr [] \/ In row (out_csv_full s).

End Runner.

End GrantLinks.

(* ------------------------------------------------------------------------- *)
(** ** api_demo.py *)

Module ApiDemo.

Section Client.

(** The session: the answer to a GET on [/search] with these parameters. *)
Variable session_get : list (str * json) -> http_outcome.

(** [d[k] = v] on a dict kept in insertion order. *)
Fixpoint dict_set (k : str) (v : json) (d : list (str * json)) : list (str * json) :=
  match d with
  | [] => [(k, v)]
  | (k', v') :: d' =>
      if str_eqb k k' then (k', v) :: d' else (k', v') :: dict_set k v d'
  end.

(** [{'q': query, 'format': kwargs.get('format', 'json'), **kwargs}] *)
Definition build_params (query : str) (kwargs : list (str * json))
  : list (str * json) :=
  let format := match assoc (lit "format") kwargs with
                | Some f => f
                | None => JStr (lit "json")
                end in
  fold_left (fun d p => dict_set (fst p) (snd p) d) kwargs
    [(lit "q", JStr query); (lit "format", format)].

Definition is_json_format (v : json) : bool :=
  match v with
  | JStr f => str_eqb f (lit "json")
  | _ => false
  end.

(** The [try] block of [SearXNGClient.search], lines 45-51. *)
Definition search_try (query : str) (kwargs : list (str * json)) : Exc json :=
  let params := build_params query kwargs in
  (response <- requests_result (session_get params) ;;
   _ <- raise_for_status response ;;
   if is_json_format
        (match assoc (lit "format") params with Some f => f | None => JNull end)
   then response_json response
   else retE (JObj [(lit "html", JStr (text response))]))%E.

(** [SearXNGClient.search], lines 20-54: only [requests.RequestException]
    is caught.  [kwargs] are keyword arguments the call accepts, that is,
    under names other than [self] and [query]. *)
Definition search (query : str) (kwargs : list (str * json)) : Exc json :=
  match search_try query kwargs with
  | inr v => retE v
  | inl e =>
      if is_RequestException e
      then retE (JObj [(lit "error", JStr (str_of_exn e))])
      else raiseE e
  end.

End Client.

Section Demo.

(** The answers to GET [/search] with given parameters and to GET
    [/config]. *)
Variable session_get : list (str * json) -> http_outcome.
Variable config_get : http_outcome.

(** [SearXNGClient.get_config], lines 56-63. *)
Definition get_config : Exc json :=
  match (response <- requests_result config_get ;;
         _ <- raise_for_status response ;;
         response_json response)%E
  with
  | inr v => retE v
  | inl e =>
      if is_RequestException e
      then retE (JObj [(lit "error", JStr (str_of_exn e))])
      else raiseE e
  end.

(** Lines 75-80 of [demo_api]: what is printed about the configuration. *)
Definition show_config (config : json) : Exc unit :=
  (has_error <- py_in (lit "error") config ;;
   if negb has_error then
     _ <- get config (lit "instance_name") (JStr (lit "Unknown")) ;;
     engines <- get config (lit "engines") (JArr []) ;;
     _ <- len engines ;;
     categories <- get config (lit "categories") (JObj []) ;;
     _ <- keys categories ;;
     retE tt
   else
     _ <- subscript config (lit "error") ;;
     retE tt)%E.

(** Lines 95-109 of [demo_api]: what is printed about one search. *)
Definition show_results (results : json) : Exc unit :=
  (has_error <- py_in (lit "error") results ;;
   if has_error then
     _ <- subscript results (lit "error") ;;
     retE tt
   else
     has_results <- py_in (lit "results") results ;;
     if has_results then
       found <- subscript results (lit "results") ;;
       _ <- len found ;;
       _ <- get results (lit "query") (JStr (lit "N/A")) ;;
       search_info <- get results (lit "search") (JObj []) ;;
       timing <- get search_info (lit "timing") (JObj []) ;;
       _ <- get timing (lit "all") (JStr (lit "N/A")) ;;
       found_again <- subscript results (lit "results") ;;
       first_three <- slice_to 3 found_again ;;
       iterE first_three
         (fun result =>
            _ <- get result (lit "title") (JStr (lit "No title")) ;;
            _ <- get result (lit "url") (JStr (lit "No URL")) ;;
            _ <- get result (lit "engine") (JStr (lit "Unknown")) ;;
            retE tt)
     else retE tt)%E.

Definition demo_queries : list str :=
  [lit "python programming"; lit "artificial intelligence";
   lit "renewable energy"].

(** [format='json', pageno=1] *)
Definition demo_kwargs : list (str * json) :=
  [(lit "format", JStr (lit "json")); (lit "pageno", JNum 1)].

(** [demo_api], lines 65-111. *)
Definition demo_api : Exc unit :=
  (config <- get_config ;;
   _ <- show_config config ;;
   iterE demo_queries
     (fun query =>
        results <- search session_get query demo_kwargs ;;
        show_results results))%E.

(** The script as a process, lines 156-174: an exception other than an
    interrupt leaves [demo_api] and ends the process with status 1 before
    the examples are shown. *)
Definition demo_exit_status : Z :=
  match demo_api with
  | inr _ => 0%Z
  | inl _ => 1%Z
  end.


(** What a client method returns for a failure it caught. *)
Definition error_dict (e : exn) : json :=
  JObj [(lit "error", JStr (str_of_exn e))].

(** The configuration has the documented shape: a dict without "error"
    whose "engines" entry has a length and whose "categories" entry is a
    dict, when they are present. *)
Definition config_shape (v : json) : bool :=
  match v with
  | JObj kv =>
      negb (existsb (fun p => str_eqb (lit "error") (fst p)) kv)
      && match assoc (lit "engines") kv with
         | Some (JArr _) | Some (JStr _) | Some (JObj _) | None => true
         | Some _ => false
         end
      && match assoc (lit "categories") kv with
         | Some (JObj _) | None => true
         | Some _ => false
         end
  | _ => false
  end.

(** The request failed in a way the client reports, or the reply has the
    shape [shape]. *)
Definition reply_ok (shape : json -> bool) (o : http_outcome) : bool :=
  request_failed o
  || match o with
     | Responds r _ => match parsed r with
                       | Some v => shape v
                       | None => false
                       end
     | Raises _ => false
     end.

End Demo.

End ApiDemo.

(* ------------------------------------------------------------------------- *)
(** ** test_continuous_operation.py *)

Module ContinuousOperation.

(** *** [defaultdict(int)] keyed by JSON values, in insertion order *)

(** [hash(k)] succeeds. *)
Definition hashable (k : json) : bool :=
  match k with
  | JArr _ | JObj _ => false
  | _ => true
  end.

Definition Z_of_bool (b : bool) : Z := if b then 1%Z else 0%Z.

(** [a == b] on hashable JSON values ([True == 1]). *)
Definition key_eqb (a b : json) : bool :=
  match a, b with
  | JNull, JNull => true
  | JStr s, JStr t => str_eqb s t
  | JBool x, JBool y => Bool.eqb x y
  | JNum x, JNum y => (x =? y)%Z
  | JBool x, JNum y => (Z_of_bool x =? y)%Z
  | JNum x, JBool y => (x =? Z_of_bool y)%Z
  | _, _ => false
  end.

Definition counter : Type := list (json * Z).

(** [d[k] += 1] once [k] is known to hash: a present key keeps its place, a
    new key goes last. *)
Fixpoint bump (k : json) (d : counter) : counter :=
  match d with
  | [] => [(k, 1%Z)]
  | (k', c) :: d' =>
      if key_eqb k k' then (k', (c + 1)%Z) :: d' else (k', c) :: bump k d'
  end.

Definition mem (k : json) (d : counter) : bool :=
  existsb (fun p => key_eqb k (fst p)) d.

(** [set.add] once the element is known to hash. *)
Definition set_add (k : json) (s : list json) : list json :=
  if existsb (key_eqb k) s then s else s ++ [k].

(** *** [sorted] *)

Section Sorted.

Variable A : Type.
Variable lt : A -> A -> bool.

(** [x], which came before every element of [l], passes only the elements
    that are strictly less than it. *)
Fixpoint insert (x : A) (l : list A) : list A :=
  match l with
  | [] => [x]
  | y :: l' => if lt y x then y :: insert x l' else x :: l
  end.

(** [sorted(l)]: the stable sort, built from the right end of [l]. *)
Definition sorted (l : list A) : list A := fold_right insert [] l.

End Sorted.

(** [sorted(d.items(), key=lambda x: -x[1])], line 137. *)
Definition neg_count_lt (a b : json * Z) : bool := (- snd a <? - snd b)%Z.

Definition sorted_engines (d : counter) : list (json * Z) :=
  sorted neg_count_lt d.

(** The order of the listing: larger counts first. *)
Definition count_ge (a b : json * Z) : Prop := (snd b <= snd a)%Z.

(** [sorted_engines[:10]], line 138. *)
Definition top_engines_of (d : counter) : list (json * Z) :=
  firstn 10 (sorted_engines d).

Definition is_str (k : json) : bool :=
  match k with JStr _ => true | _ => false end.

Definition is_num (k : json) : bool :=
  match k with JBool _ | JNum _ => true | _ => false end.

Definition num_of (k : json) : Z :=
  match k with JBool b => Z_of_bool b | JNum n => n | _ => 0%Z end.

(** [a < b] on the keys of one dict, where it is defined: two strings or
    two numbers. *)
Definition key_ltb (a b : json) : bool :=
  match a, b with
  | JStr s, JStr t => str_ltb s t
  | _, _ => (num_of a <? num_of b)%Z
  end.

(** The keys can be ordered: fewer than two, or all strings, or all
    numbers.  Otherwise some comparison raises [TypeError]. *)
Definition comparable (keys : list json) : bool :=
  match keys with
  | [] | [_] => true
  | _ => forallb is_str keys || forallb is_num keys
  end.

(** [sorted(d.items())], line 143: the keys of a dict are pairwise distinct,
    so the tuples are ordered by their keys. *)
Definition sorted_items (d : counter) : Exc (list (json * Z)) :=
  if comparable (map fst d)
  then retE (sorted (fun a b => key_ltb (fst a) (fst b)) d)
  else raiseE TypeError.

(** [', '.join(sorted(s))], line 100: it raises unless every element is a
    string; the text itself is only printed. *)
Definition join_sorted (s : list json) : Exc unit :=
  if forallb is_str s then retE tt else raiseE TypeError.

(** *** The run *)

(** The [stats] dict, lines 32-40. *)
Record stats : Type := {
  total_searches : Z;
  successful_searches : Z;
  failed_searches : Z;
  total_results : Z;
  engines_used : counter;
  suspended_engines : counter;
  response_times : list Q;
}.

Definition stats0 : stats :=
  {| total_searches := 0; successful_searches := 0; failed_searches := 0;
     total_results := 0; engines_used := []; suspended_engines := [];
     response_times := [] |}.

Definition add_total (st : stats) : stats :=
  {| total_searches := total_searches st + 1;
     successful_searches := successful_searches st;
     failed_searches := failed_searches st;
     total_results := total_results st;
     engines_used := engines_used st;
     suspended_engines := suspended_engines st;
     response_times := response_times st |}.

Definition add_successful (st : stats) : stats :=
  {| total_searches := total_searches st;
     successful_searches := successful_searches st + 1;
     failed_searches := failed_searches st;
     total_results := total_results st;
     engines_used := engines_used st;
     suspended_engines := suspended_engines st;
     response_times := response_times st |}.

Definition add_failed (st : stats) : stats :=
  {| total_searches := total_searches st;
     successful_searches := successful_searches st;
     failed_searches := failed_searches st + 1;
     total_results := total_results st;
     engines_used := engines_used st;
     suspended_engines := suspended_engines st;
     response_times := response_times st |}.

Definition add_results (n : Z) (st : stats) : stats :=
  {| total_searches := total_searches st;
     successful_searches := successful_searches st;
     failed_searches := failed_searches st;
     total_results := total_results st + n;
     engines_used := engines_used st;
     suspended_engines := suspended_engines st;
     response_times := response_times st |}.

Definition add_response_time (t : Q) (st : stats) : stats :=
  {| total_searches := total_searches st;
     successful_searches := successful_searches st;
     failed_searches := failed_searches st;
     total_results := total_results st;
     engines_used := engines_used st;
     suspended_engines := suspended_engines st;
     response_times := response_times st ++ [t] |}.

Definition set_engines_used (d : counter) (st : stats) : stats :=
  {| total_searches := total_searches st;
     successful_searches := successful_searches st;
     failed_searches := failed_searches st;
     total_results := total_results st;
     engines_used := d;
     suspended_engines := suspended_engines st;
     response_times := response_times st |}.

Definition set_suspended_engines (d : counter) (st : stats) : stats :=
  {| total_searches := total_searches st;
     successful_searches := successful_searches st;
     failed_searches := failed_searches st;
     total_results := total_results st;
     engines_used := engines_used st;
     suspended_engines := d;
     response_times := response_times st |}.

(** [stats['engines_used'][engine] += 1]: the key is hashed first. *)
Definition bump_engine (engine : json) : St stats unit :=
  if hashable engine
  then modify (fun st => set_engines_used (bump engine (engines_used st)) st)
  else raiseS TypeError.

(** [stats['suspended_engines'][engine_name] += 1] *)
Definition bump_suspended (engine_name : json) : St stats unit :=
  if hashable engine_name
  then modify (fun st =>
                 set_suspended_engines (bump engine_name (suspended_engines st)) st)
  else raiseS TypeError.

(** Lines 83-87: every engine of every result is counted; the local set
    [engines_in_this_search] is the value returned. *)
Definition track_engines (results : list json) : St stats (list json) :=
  fold_each results []
    (fun result seen =>
       (engines <- liftE (get result (lit "engines") (JArr [])) ;;
        each <- liftE (iter engines) ;;
        fold_each each seen
          (fun engine seen' =>
             (bump_engine engine ;; retS (set_add engine seen'))%S))%S).

(** Lines 90-96: [isinstance(engine_info, list) and len(engine_info) > 0]. *)
Definition track_suspended (unresponsive : list json) : St stats unit :=
  for_each unresponsive
    (fun engine_info =>
       match engine_info with
       | JArr (engine_name :: _) => bump_suspended engine_name
       | _ => retS tt
       end).

(** The [try] block, lines 63-104. *)
Definition attempt (o : http_outcome) : St stats unit :=
  match o with
  | Raises e => raiseS e
  | Responds response elapsed =>
      (modify (add_response_time elapsed) ;;
       if (status_code response =? 200)%Z then
         data <- liftE (response_json response) ;;
         results <- liftE (get data (lit "results") (JArr [])) ;;
         num_results <- liftE (len results) ;;
         modify add_successful ;;
         modify (add_results num_results) ;;
         each <- liftE (iter results) ;;
         engines_in_this_search <- track_engines each ;;
         unresponsive <- liftE (get data (lit "unresponsive_engines") (JArr [])) ;;
         infos <- liftE (iter unresponsive) ;;
         track_suspended infos ;;
         liftE (join_sorted engines_in_this_search)
       else modify add_failed)%S
  end.

(** The [except] clauses, lines 106-111. *)
Definition handlers (e : exn) : option (St stats unit) :=
  if is_Timeout e then Some (modify add_failed)
  else Some (modify add_failed).

Definition queries : list str :=
  [lit "python programming"; lit "machine learning"; lit "docker containers";
   lit "kubernetes deployment"; lit "artificial intelligence";
   lit "web development"; lit "data science"; lit "cloud computing";
   lit "cybersecurity"; lit "blockchain technology"].

(** *** Shapes and invariants used to state properties of the run *)

(** A reply arrived. *)
Definition replied (o : http_outcome) : bool :=
  match o with
  | Responds _ _ => true
  | Raises _ => false
  end.






(** The bounds the counters keep. *)
Definition counters_bounded (st : stats) : Prop :=
  (0 <= successful_searches st
   /\ successful_searches st <= Z.of_nat (List.length (response_times st))
   /\ Z.of_nat (List.length (response_times st)) <= total_searches st
   /\ 0 <= failed_searches st
   /\ failed_searches st <= total_searches st
   /\ total_searches st <= successful_searches st + failed_searches st)%Z.

(** A counter as a dict should be: keys that hash, each listed once, each
    with a count of at least one. *)
Definition counter_ok (d : counter) : Prop :=
  Forall (fun p => hashable (fst p) = true /\ (1 <= snd p)%Z) d
  /\ ForallOrdPairs (fun a b => key_eqb (fst a) (fst b) = false) d.

Definition counters_ok (st : stats) : Prop :=
  counter_ok (engines_used st) /\ counter_ok (suspended_engines st).

Section Run.

(** The network: the answer to the request of iteration [i]. *)
Variable requests_get : nat -> str -> http_outcome.

(** [queries[i % len(queries)]] *)
Definition query_of (i : nat) : str :=
  nth (i mod List.length queries) queries [].

(** One turn of the loop up to the end of the [try] statement, lines 56-111.
    The pause of lines 113-115 is added by [turn] below. *)
Definition iteration (i : nat) : St stats unit :=
  (modify add_total ;;
   try_except (attempt (requests_get i (query_of i))) handlers)%S.

(** [range(num_searches)] *)
Definition range (n : Z) : list nat := seq 0 (Z.to_nat n).

(** The loop for a delay that [time.sleep] accepts, so that no pause raises;
    [run_loop_paused] below is the loop for any delay. *)
Definition run_loop (num_searches : Z) : St stats unit :=
  for_each (range num_searches) iteration.

(** *** The summary and the verdict *)

(** [a / b] on two ints: a float, or [ZeroDivisionError]. *)
Definition py_div (a b : Z) : Exc Q :=
  if (b =? 0)%Z then raiseE ZeroDivisionError
  else retE (inject_Z a / inject_Z b).

(** [x / n] with a float on the left. *)
Definition py_divq (x : Q) (n : Z) : Exc Q :=
  if (n =? 0)%Z then raiseE ZeroDivisionError
  else retE (x / inject_Z n).

Definition sumq (l : list Q) : Q := fold_left Qplus l 0.

Inductive verdict : Type := Excellent | Good | Warning.

(** What the summary prints. *)
Record report : Type := {
  pct_successful : Q;
  pct_failed : Q;
  average_results : Q;
  latency : option (Q * Q * Q);          (* average, min, max *)
  top_engines : list (json * Z);
  suspended_listing : list (json * Z);
  success_rate : Q;
  final_verdict : verdict;
}.

(** Lines 127-134: only with at least one sample. *)
Definition latency_of (times : list Q) : Exc (option (Q * Q * Q)) :=
  match times with
  | [] => retE None
  | t :: ts =>
      (avg_time <- py_divq (sumq times) (Z.of_nat (List.length times)) ;;
       retE (Some (avg_time, fold_left Qmin ts t, fold_left Qmax ts t)))%E
  end.

(** Lines 141-149: sorted only when some engine was suspended. *)
Definition suspended_of (d : counter) : Exc (list (json * Z)) :=
  if nonempty d then sorted_items d else retE [].

(** Lines 155-161. *)
Definition verdict_of (rate : Q) : verdict :=
  if Qle_bool 95 rate then Excellent
  else if Qle_bool 80 rate then Good
  else Warning.

(** Lines 117-161. *)
Definition summary (st : stats) : Exc report :=
  (ok <- py_div (successful_searches st) (total_searches st) ;;
   ko <- py_div (failed_searches st) (total_searches st) ;;
   avg <- py_div (total_results st) (Z.max (successful_searches st) 1) ;;
   lat <- latency_of (response_times st) ;;
   let top := top_engines_of (engines_used st) in
   susp <- suspended_of (suspended_engines st) ;;
   ratio <- py_div (successful_searches st) (total_searches st) ;;
   let rate := ratio * 100 in
   retE {| pct_successful := ok * 100;
           pct_failed := ko * 100;
           average_results := avg;
           latency := lat;
           top_engines := top;
           suspended_listing := susp;
           success_rate := rate;
           final_verdict := verdict_of rate |})%E.

(** [test_continuous_operation], lines 15-163, for a delay that
    [time.sleep] accepts: the returned [stats] and what was printed at the
    end. *)
Definition test_continuous_operation (num_searches : Z) : Exc (stats * report) :=
  match run_loop num_searches stats0 with
  | (_, inl e) => raiseE e
  | (st, inr _) => (rep <- summary st ;; retE (st, rep))%E
  end.

(** The script as a process, lines 165-184, for a delay that [time.sleep]
    accepts: its exit status.  [sys.exit] is not an [Exception], so the last
    clause does not catch it. *)
Definition exit_status (num_searches : Z) : Z :=
  match (sr <- test_continuous_operation num_searches ;;
         ratio <- py_div (successful_searches (fst sr)) (total_searches (fst sr)) ;;
         let success_rate := ratio * 100 in
         retE (if Qle_bool 80 success_rate then 0%Z else 1%Z))%E
  with
  | inr status => status
  | inl _ => 1%Z
  end.

End Run.

(** *** The pause between two searches *)

Section Pause.

Variable requests_get : nat -> str -> http_outcome.

(** What [time.sleep(delay)] does for the delay of the run: it returns once
    the delay has elapsed, or it raises ([ValueError] for a negative delay or
    NaN, [OverflowError] for a delay too large). *)
Variable sleep : Exc unit.

(** One whole turn of the loop, lines 56-115: the pause follows the [try]
    statement, outside it, and is skipped after the last search. *)
Definition turn (num_searches : Z) (i : nat) : St stats unit :=
  (iteration requests_get i ;;
   if (Z.of_nat i <? num_searches - 1)%Z then liftE sleep else retS tt)%S.

Definition run_loop_paused (num_searches : Z) : St stats unit :=
  for_each (range num_searches) (turn num_searches).

(** [test_continuous_operation(num_searches, delay)], lines 15-163. *)
Definition test_continuous_operation_paused (num_searches : Z)
  : Exc (stats * report) :=
  match run_loop_paused num_searches stats0 with
  | (_, inl e) => raiseE e
  | (st, inr _) => (rep <- summary st ;; retE (st, rep))%E
  end.

(** The script as a process, lines 165-184, for any delay. *)
Definition exit_status_paused (num_searches : Z) : Z :=
  match (sr <- test_continuous_operation_paused num_searches ;;
         ratio <- py_div (successful_searches (fst sr)) (total_searches (fst sr)) ;;
         let success_rate := ratio * 100 in
         retE (if Qle_bool 80 success_rate then 0%Z else 1%Z))%E
  with
  | inr status => status
  | inl _ => 1%Z
  end.

End Pause.

End ContinuousOperation.

(* ========================================================================= *)
(** * Theorems *)

Section StripFacts.

Lemma lstrip_no_space c s : isspace c = false -> lstrip (c :: s) = c :: s.
Proof. intros H; simpl; now rewrite H. Qed.

Lemma lstrip_idem s : lstrip (lstrip s) = lstrip s.
Proof.
  induction s as [|c s IH]; simpl; auto.
  destruct (isspace c) eqn:E; auto.
  simpl; now rewrite E.
Qed.

Lemma lstrip_snoc s c :
  isspace c = false -> lstrip (s ++ [c]) = lstrip s ++ [c].
Proof.
  intros H; induction s as [|d s IH]; simpl.
  - now rewrite H.
  - destruct (isspace d); auto.
Qed.

Lemma lstrip_app_no_space s t c :
  isspace c = false -> lstrip (s ++ c :: t) = lstrip s ++ c :: t.
Proof.
  intros H; induction s as [|d s IH]; simpl.
  - now rewrite H.
  - destruct (isspace d); auto.
Qed.

Lemma rstrip_cons_no_space c s :
  isspace c = false -> rstrip (c :: s) = c :: rstrip s.
Proof.
  intros H; unfold rstrip; simpl.
  rewrite lstrip_snoc by exact H.
  now rewrite rev_app_distr.
Qed.

Lemma rstrip_idem s : rstrip (rstrip s) = rstrip s.
Proof. unfold rstrip; now rewrite rev_involutive, lstrip_idem. Qed.

(** The head of a stripped string is never whitespace. *)
Lemma lstrip_head s : lstrip s = [] \/ exists c t, lstrip s = c :: t /\ isspace c = false.
Proof.
  induction s as [|c s IH]; simpl; auto.
  destruct (isspace c) eqn:E; auto.
  right; now exists c, s.
Qed.

Lemma strip_head s : strip s = [] \/ exists c t, strip s = c :: t /\ isspace c = false.
Proof.
  unfold strip.
  destruct (lstrip_head s) as [-> | (c & t & -> & Hc)].
  - now left.
  - right; exists c, (rstrip t); split; auto using rstrip_cons_no_space.
Qed.

Lemma lstrip_strip s : lstrip (strip s) = strip s.
Proof.
  destruct (strip_head s) as [-> | (c & t & -> & Hc)]; auto using lstrip_no_space.
Qed.

Lemma strip_idem s : strip (strip s) = strip s.
Proof.
  unfold strip at 1. rewrite lstrip_strip.
  unfold strip; apply rstrip_idem.
Qed.

End StripFacts.

Section Normalizer.

Import GrantLinks.

(** What the code decides on: a case split that follows the source. *)
Lemma clean_grant_name_cases q :
  clean_grant_name q =
    if endswith (lower (strip q)) (lit "grant")
       || contains (lower (strip q)) (lit " grant ")
    then strip q else strip q ++ lit " grant".
Proof. reflexivity. Qed.

Lemma strip_app_grant s :
  strip s <> [] -> strip (strip s ++ lit " grant") = strip s ++ lit " grant".
Proof.
  intros Hne.
  destruct (strip_head s) as [E | (c & t & E & Hc)]; [contradiction|].
  rewrite E. unfold strip at 1.
  change ((c :: t) ++ lit " grant") with (c :: t ++ lit " grant").
  rewrite lstrip_no_space by exact Hc.
  unfold rstrip.
  change (c :: t ++ lit " grant") with ((c :: t) ++ lit " grant").
  rewrite rev_app_distr.
  change (rev (lit " grant") ++ rev (c :: t))
    with ("t"%char :: (rev (lit " gran") ++ rev (c :: t))).
  rewrite lstrip_no_space by reflexivity.
  change ("t"%char :: (rev (lit " gran") ++ rev (c :: t)))
    with (rev (lit " grant") ++ rev (c :: t)).
  now rewrite <- rev_app_distr, rev_involutive.
Qed.

Lemma endswith_app_grant s : endswith (lower (s ++ lit " grant")) (lit "grant") = true.
Proof.
  unfold endswith, lower. rewrite map_app, rev_app_distr. reflexivity.
Qed.

(** C6, evaluated on the code: the lowercased text "grant for research"
    contains the required term as a standalone word (its first word), so the
    specification returns the trimmed text unchanged, yet [clean_grant_name]
    appends " grant": its membership test only looks for the term between two
    spaces. *)
Theorem clean_grant_name_leading_word :
  spec_standalone_word (lit "grant") (lower (strip (lit "Grant for research"))) = true
  /\ spec_normalize (lit "Grant for research") = lit "Grant for research"
  /\ clean_grant_name (lit "Grant for research") = lit "Grant for research grant".
Proof. repeat split; vm_compute; reflexivity. Qed.

(** C7 as stated fails: on the empty string the first pass returns " grant"
    and the second pass strips the leading space. *)
Lemma clean_grant_name_empty_not_idempotent :
  clean_grant_name (clean_grant_name (lit "")) <> clean_grant_name (lit "").
Proof. vm_compute. discriminate. Qed.

(** C7, amended: [clean_grant_name] is idempotent on every query whose trimmed
    text is not empty (the only queries [main] passes to it). *)
Theorem clean_grant_name_idempotent q :
  strip q <> [] ->
  clean_grant_name (clean_grant_name q) = clean_grant_name q.
Proof.
  intros Hne.
  rewrite (clean_grant_name_cases q).
  destruct (endswith (lower (strip q)) (lit "grant")
            || contains (lower (strip q)) (lit " grant ")) eqn:E.
  - rewrite clean_grant_name_cases, strip_idem, E. reflexivity.
  - rewrite clean_grant_name_cases, strip_app_grant by exact Hne.
    now rewrite endswith_app_grant.
Qed.

Lemma clean_grant_name_idempotent_witness :
  strip (lit " Fulbright ") <> []
  /\ clean_grant_name (clean_grant_name (lit " Fulbright "))
     = clean_grant_name (lit " Fulbright ").
Proof.
  split.
  - vm_compute; discriminate.
  - apply (clean_grant_name_idempotent (lit " Fulbright ")). vm_compute; discriminate.
Defined.

End Normalizer.

Section BatchRunner.

Import GrantLinks.

Variable net : nat -> str -> http_outcome.

Lemma backend_error_no_links n q :
  backend_error (net n q) -> search_grant_google net n q = [].
Proof.
  unfold search_grant_google, search_grant_google_try, backend_error.
  destruct (net n q) as [e | r t]; simpl; auto.
  intros [Hs | Hp].
  - apply Z.eqb_neq in Hs. now rewrite Hs.
  - destruct (status_code r =? 200)%Z; auto.
    unfold response_json. now rewrite Hp.
Qed.

(** C1: a record that is not skipped and whose backend call fails, or yields
    no link, appends exactly one row with an empty link to the best-result
    file and none to the full file, and the loop goes on with the records
    that follow. *)
Theorem failed_item_writes_one_empty_row row rest s g :
  read_grant_name row = inr g ->
  skipped g = false ->
  backend_error (net (query_count s) (clean_grant_name g))
  \/ search_grant_google net (query_count s) (clean_grant_name g) = [] ->
  let s' := {| out_csv := out_csv s ++ [[JStr g; JStr (clean_grant_name g); JStr []]];
               out_csv_full := out_csv_full s;
               query_count := S (query_count s) |} in
  process_row net row s = (s', inr tt)
  /\ main_loop net (row :: rest) s = main_loop net rest s'.
Proof.
  intros Hg Hskip Hfail s'.
  assert (Hnil : search_grant_google net (query_count s) (clean_grant_name g) = []).
  { destruct Hfail as [H | H]; auto using backend_error_no_links. }
  assert (Hrow : process_row net row s = (s', inr tt)).
  { unfold process_row, bindS, liftE, read. rewrite Hg, Hskip.
    simpl. rewrite Hnil. reflexivity. }
  split; [exact Hrow|].
  unfold main_loop; simpl. unfold bindS at 1. now rewrite Hrow.
Qed.

End BatchRunner.

Lemma failed_item_writes_one_empty_row_witness :
  let net0 := fun (_ : nat) (_ : str) => Raises Timeout in
  let row := [(lit "grant_name", Some (lit " Fulbright"))] in
  let s' := {| GrantLinks.out_csv :=
                 [GrantLinks.header;
                  [JStr (lit "Fulbright"); JStr (lit "Fulbright grant"); JStr []]];
               GrantLinks.out_csv_full := [GrantLinks.header];
               GrantLinks.query_count := 1 |} in
  GrantLinks.process_row net0 row GrantLinks.opened = (s', inr tt)
  /\ GrantLinks.main_loop net0 [row] GrantLinks.opened
     = GrantLinks.main_loop net0 [] s'.
Proof.
  intros net0 row s'.
  apply (@failed_item_writes_one_empty_row net0 row [] GrantLinks.opened
           (lit "Fulbright")).
  - reflexivity.
  - reflexivity.
  - left. exact I.
Defined.

Section MissingInput.

Import GrantLinks.

Variable net : nat -> str -> http_outcome.

(** C4, evaluated on the code: with the credentials present and no input
    file, [main] prints its error and returns, so no output file is opened
    and the process ends with status 0, whereas the start-up check of the
    credentials ends it with status 1. *)
Theorem missing_input_exits_zero :
  script net true None = (0%Z, None)
  /\ forall input, script net false input = (1%Z, None).
Proof. split; reflexivity. Qed.

End MissingInput.

(* ------------------------------------------------------------------------- *)
(** ** The top-engines listing *)

(** Tear a chain of binds in hypothesis [H] apart, one scrutinee at a time. *)
Ltac split_binds H :=
  repeat match type of H with
         | context [match ?m with inl _ => _ | inr _ => _ end] =>
             destruct m eqn:?; try discriminate H
         end.

Section StableSort.

Import ContinuousOperation.

Variable A : Type.
Variable lt : A -> A -> bool.

Lemma insert_perm x l : Permutation (insert lt x l) (x :: l).
Proof.
  induction l as [|y l IH]; simpl; auto.
  destruct (lt y x); auto.
  rewrite IH. apply perm_swap.
Qed.

Lemma sorted_perm l : Permutation (sorted lt l) l.
Proof.
  induction l as [|x l IH]; simpl; auto.
  rewrite insert_perm. now constructor.
Qed.

(** An element only passes elements outside the class [P] it belongs to, so
    the members of [P] keep their order. *)
Lemma insert_filter (P : A -> bool) x l :
  (forall y, lt y x = true -> P x = true -> P y = false) ->
  filter P (insert lt x l) = filter P (x :: l).
Proof.
  intros H; induction l as [|y l IH]; simpl; auto.
  destruct (lt y x) eqn:E; simpl; auto.
  simpl in IH. rewrite IH.
  destruct (P x) eqn:Px; auto.
  now rewrite (H y E eq_refl).
Qed.

Lemma sorted_filter (P : A -> bool) l :
  (forall x y, lt y x = true -> P x = true -> P y = false) ->
  filter P (sorted lt l) = filter P l.
Proof.
  intros H; induction l as [|x l IH]; simpl; auto.
  rewrite insert_filter by (apply H). simpl. now rewrite IH.
Qed.

End StableSort.

Section TopEngines.

Import ContinuousOperation.

Lemma insert_count_sorted x l :
  StronglySorted count_ge l -> StronglySorted count_ge (insert neg_count_lt x l).
Proof.
  induction 1 as [|y l Hs IH Hy]; simpl.
  - repeat constructor.
  - unfold neg_count_lt at 1. destruct (Z.ltb_spec (- snd y) (- snd x)).
    + constructor; auto.
      eapply Permutation_Forall; [symmetry; apply insert_perm|].
      constructor; auto. unfold count_ge; lia.
    + constructor; [now constructor|].
      constructor; [unfold count_ge; lia|].
      eapply Forall_impl; [|exact Hy]. unfold count_ge; intros; lia.
Qed.

Lemma sorted_engines_sorted d : StronglySorted count_ge (sorted_engines d).
Proof.
  unfold sorted_engines, sorted.
  induction d as [|x d IH]; simpl; [constructor | now apply insert_count_sorted].
Qed.

Lemma sorted_engines_ties c d :
  filter (fun p => (snd p =? c)%Z) (sorted_engines d)
  = filter (fun p => (snd p =? c)%Z) d.
Proof.
  apply sorted_filter. intros x y Hlt Hx.
  unfold neg_count_lt in Hlt.
  apply Z.ltb_lt in Hlt. apply Z.eqb_eq in Hx. apply Z.eqb_neq. lia.
Qed.

(** The keys of the counter stay in the order in which they were first
    counted. *)
Lemma bump_keys k d :
  map fst (bump k d) = map fst d ++ (if mem k d then [] else [k]).
Proof.
  induction d as [|[k' c] d IH]; simpl; auto.
  destruct (key_eqb k k'); simpl.
  - now rewrite app_nil_r.
  - now rewrite IH.
Qed.

Lemma summary_top_engines st rep :
  summary st = inr rep -> top_engines rep = top_engines_of (engines_used st).
Proof.
  unfold summary, bindE, retE. intros H. split_binds H.
  injection H as <-. reflexivity.
Qed.

(** C8: the listing is the first ten entries of the engines ordered by
    count, largest first; the order is a rearrangement of the counter's
    items in which engines with the same count keep the iteration order of
    the counter, and that order is the order of first encounter (a counted
    engine keeps its place, a new one goes last). *)
Theorem top_engines_order (st : stats) :
  let d := engines_used st in
  (match summary st with
   | inr rep => top_engines rep = top_engines_of d
   | inl _ => True
   end)
  /\ top_engines_of d = firstn 10 (sorted_engines d)
  /\ Permutation (sorted_engines d) d
  /\ StronglySorted count_ge (sorted_engines d)
  /\ (forall c, filter (fun p => (snd p =? c)%Z) (sorted_engines d)
                = filter (fun p => (snd p =? c)%Z) d)
  /\ (forall k, map fst (bump k d) = map fst d ++ (if mem k d then [] else [k])).
Proof.
  intros d. repeat split.
  - destruct (summary st) as [e | rep] eqn:E; auto.
    now apply summary_top_engines.
  - apply sorted_perm.
  - apply sorted_engines_sorted.
  - intros c; apply sorted_engines_ties.
  - intros k; apply bump_keys.
Qed.

End TopEngines.

(* ------------------------------------------------------------------------- *)
(** ** The continuous run: what a turn of the loop changes *)

Section Keeps.

Variables S X : Type.
Variable f : S -> X.

Lemma keeps_ret A (a : A) : keeps f (retS a).
Proof. now intros s. Qed.

Lemma keeps_raise A e : keeps f (@raiseS S A e).
Proof. now intros s. Qed.

Lemma keeps_lift A (m : Exc A) : keeps f (liftE m).
Proof. now intros s. Qed.

Lemma keeps_modify (g : S -> S) : (forall s, f (g s) = f s) -> keeps f (modify g).
Proof. intros H s; apply H. Qed.

Lemma keeps_bind A B (m : St S A) (k : A -> St S B) :
  keeps f m -> (forall a, keeps f (k a)) -> keeps f (bindS m k).
Proof.
  intros Hm Hk s. unfold bindS.
  specialize (Hm s). destruct (m s) as [s' [e | a]]; simpl in *; auto.
  now rewrite Hk.
Qed.

Lemma keeps_for_each A (xs : list A) (body : A -> St S unit) :
  (forall x, keeps f (body x)) -> keeps f (for_each xs body).
Proof.
  intros H; induction xs as [|x xs IH]; simpl.
  - apply keeps_ret.
  - apply keeps_bind; auto.
Qed.

Lemma keeps_fold_each A B (xs : list A) (body : A -> B -> St S B) acc :
  (forall x b, keeps f (body x b)) -> keeps f (fold_each xs acc body).
Proof.
  intros H; revert acc; induction xs as [|x xs IH]; intros acc; simpl.
  - apply keeps_ret.
  - apply keeps_bind; auto.
Qed.

Lemma keeps_if A (b : bool) (m1 m2 : St S A) :
  keeps f m1 -> keeps f m2 -> keeps f (if b then m1 else m2).
Proof. now destruct b. Qed.

End Keeps.

Ltac keeps_step :=
  match goal with
  | |- keeps _ (retS _) => apply keeps_ret
  | |- keeps _ (raiseS _) => apply keeps_raise
  | |- keeps _ (liftE _) => apply keeps_lift
  | |- keeps _ (modify _) => apply keeps_modify; intros ?; reflexivity
  | |- keeps _ (bindS _ _) => apply keeps_bind; [|intros ?]
  | |- keeps _ (for_each _ _) => apply keeps_for_each; intros ?
  | |- keeps _ (fold_each _ _ _) => apply keeps_fold_each; intros ? ?
  | |- keeps _ (if ?b then _ else _) => destruct b
  | |- keeps _ (match ?x with _ => _ end) => destruct x
  end.

Ltac keeps_auto := repeat keeps_step.

Section Turn.

Import ContinuousOperation.

Variable net : nat -> str -> http_outcome.

Lemma attempt_keeps_total o : keeps total_searches (attempt o).
Proof.
  unfold attempt, track_engines, track_suspended, bump_engine, bump_suspended.
  destruct o; keeps_auto.
Qed.

(** Whatever follows the arrival of a reply leaves the samples alone: the
    reply adds exactly one. *)
Lemma attempt_records_one_sample r t s :
  response_times (fst (attempt (Responds r t) s)) = response_times s ++ [t].
Proof.
  unfold attempt.
  match goal with
  | |- context [bindS (modify ?g) ?k] =>
      change (bindS (modify g) k s) with (k tt (g s));
      assert (K : keeps response_times (k tt))
  end.
  { unfold track_engines, track_suspended, bump_engine, bump_suspended.
    keeps_auto. }
  rewrite K. reflexivity.
Qed.

(** The handlers catch everything: a turn always returns. *)
Lemma iteration_returns i s : snd (iteration net i s) = inr tt.
Proof.
  unfold iteration, bindS, modify, try_except.
  destruct (attempt _ _) as [s' [e | []]]; simpl; auto.
  unfold handlers. destruct (is_Timeout e); reflexivity.
Qed.

Lemma iteration_total i s :
  total_searches (fst (iteration net i s)) = (total_searches s + 1)%Z.
Proof.
  unfold iteration, bindS, modify, try_except.
  pose proof (attempt_keeps_total (net i (query_of i)) (add_total s)) as H.
  destruct (attempt _ _) as [s' [e | []]]; simpl in *; auto.
  unfold handlers. destruct (is_Timeout e); simpl; exact H.
Qed.

Lemma for_each_iteration_returns xs s :
  snd (for_each xs (iteration net) s) = inr tt
  /\ total_searches (fst (for_each xs (iteration net) s))
     = (total_searches s + Z.of_nat (List.length xs))%Z.
Proof.
  revert s; induction xs as [|i xs IH]; intros s.
  - simpl. split; auto. lia.
  - cbn [for_each]. unfold bindS.
    pose proof (iteration_returns i s) as Hr.
    pose proof (iteration_total i s) as Ht.
    destruct (iteration net i s) as [s1 [e | []]]; simpl in Hr, Ht; [discriminate|].
    destruct (IH s1) as [H1 H2]. split; auto.
    rewrite H2, Ht. cbn [List.length]. lia.
Qed.

(** The loop never raises and counts one search per turn. *)
Lemma run_loop_returns n s :
  snd (run_loop net n s) = inr tt
  /\ total_searches (fst (run_loop net n s)) = (total_searches s + Z.max 0 n)%Z.
Proof.
  unfold run_loop, range.
  destruct (for_each_iteration_returns (seq 0 (Z.to_nat n)) s) as [H1 H2].
  split; auto. rewrite H2, length_seq. lia.
Qed.

End Turn.

Section Counters.

Import ContinuousOperation.

Variable net : nat -> str -> http_outcome.

Lemma iteration_raised i s e :
  net i (query_of i) = Raises e ->
  fst (iteration net i s) = add_failed (add_total s).
Proof.
  intros E. unfold iteration, bindS, modify, try_except. rewrite E. simpl.
  unfold handlers. destruct (is_Timeout e); reflexivity.
Qed.

Lemma iteration_samples i s r t :
  net i (query_of i) = Responds r t ->
  response_times (fst (iteration net i s)) = response_times s ++ [t].
Proof.
  intros E. unfold iteration, bindS, modify, try_except. rewrite E.
  pose proof (attempt_records_one_sample r t (add_total s)) as H.
  destruct (attempt _ _) as [s' [e | []]]; simpl in *; auto.
  unfold handlers. destruct (is_Timeout e); simpl; exact H.
Qed.

Lemma iteration_failed_reply i s r t :
  net i (query_of i) = Responds r t ->
  status_code r <> 200%Z \/ parsed r = None ->
  fst (iteration net i s) = add_failed (add_response_time t (add_total s)).
Proof.
  intros E H. unfold iteration, bindS, modify, try_except. rewrite E.
  unfold attempt, bindS, modify.
  destruct (Z.eqb_spec (status_code r) 200) as [Hs | Hs].
  - destruct H as [H | H]; [contradiction|].
    unfold liftE, response_json. rewrite H. reflexivity.
  - reflexivity.
Qed.

(** C5, amended: a turn always returns.  When the request itself raises (a
    timeout or anything else), the failure counter goes up by one and no
    latency sample is recorded.  When a reply arrives, its latency is
    recorded as one sample whatever the status and the body; a reply with a
    status other than 200, or with a body that is not JSON, also counts one
    failure and no success. *)
Theorem latency_sample_per_reply i s :
  let s' := fst (iteration net i s) in
  snd (iteration net i s) = inr tt
  /\ match net i (query_of i) with
     | Raises _ =>
         failed_searches s' = (failed_searches s + 1)%Z
         /\ successful_searches s' = successful_searches s
         /\ response_times s' = response_times s
     | Responds r t =>
         response_times s' = response_times s ++ [t]
         /\ (status_code r <> 200%Z \/ parsed r = None ->
             failed_searches s' = (failed_searches s + 1)%Z
             /\ successful_searches s' = successful_searches s)
     end.
Proof.
  intros s'. split; [apply iteration_returns|].
  destruct (net i (query_of i)) as [e | r t] eqn:E.
  - subst s'. rewrite (@iteration_raised i s e E). auto.
  - split.
    + apply (@iteration_samples i s r t E).
    + intros H. subst s'. rewrite (@iteration_failed_reply i s r t E H). auto.
Qed.

End Counters.

Lemma latency_sample_per_reply_witness :
  let net0 := fun (_ : nat) (_ : str) =>
                Responds {| status_code := 500; text := []; parsed := None |} (3 # 2) in
  let s' := fst (ContinuousOperation.iteration net0 0 ContinuousOperation.stats0) in
  ContinuousOperation.response_times s' = [3 # 2]
  /\ ContinuousOperation.failed_searches s' = 1%Z
  /\ ContinuousOperation.successful_searches s' = 0%Z.
Proof.
  intros net0 s'.
  destruct (@latency_sample_per_reply net0 0%nat ContinuousOperation.stats0)
    as [_ [Ht Hf]].
  split; [exact Ht|].
  apply Hf. left. simpl. discriminate.
Defined.

(** C5 as stated fails: an HTTP 200 reply whose body is not JSON counts one
    failure, and its latency has been recorded all the same. *)
Lemma unparseable_reply_records_latency :
  let net0 := fun (_ : nat) (_ : str) =>
                Responds {| status_code := 200; text := lit "<html>"; parsed := None |} (1 # 2) in
  let s := ContinuousOperation.stats0 in
  let s' := fst (ContinuousOperation.iteration net0 0 s) in
  ContinuousOperation.failed_searches s' = (ContinuousOperation.failed_searches s + 1)%Z
  /\ ContinuousOperation.response_times s' <> ContinuousOperation.response_times s.
Proof. split; [reflexivity | discriminate]. Qed.

(** C9, evaluated on the code: an HTTP 200 reply whose body is
    [{"results": [], "unresponsive_engines": null}] is counted as a success
    on line 79, then the loop over [None] raises inside the same [try] and
    the handler counts a failure: one search, one success and one failure. *)
Theorem reply_counted_twice :
  let body := JObj [(lit "results", JArr []); (lit "unresponsive_engines", JNull)] in
  let net0 := fun (_ : nat) (_ : str) =>
                Responds {| status_code := 200; text := []; parsed := Some body |} (1 # 2) in
  let s := fst (ContinuousOperation.run_loop net0 1 ContinuousOperation.stats0) in
  ContinuousOperation.total_searches s = 1%Z
  /\ ContinuousOperation.successful_searches s = 1%Z
  /\ ContinuousOperation.failed_searches s = 1%Z
  /\ ContinuousOperation.total_searches s
     <> (ContinuousOperation.successful_searches s
         + ContinuousOperation.failed_searches s)%Z.
Proof. repeat split. vm_compute. discriminate. Qed.

(* ------------------------------------------------------------------------- *)
(** ** The summary, the verdict and the exit status *)

Section Summary.

Import ContinuousOperation.

Variable net : nat -> str -> http_outcome.

Lemma py_div_zero a : py_div a 0 = inl ZeroDivisionError.
Proof. reflexivity. Qed.

Lemma py_div_nonzero a b :
  b <> 0%Z -> py_div a b = inr (inject_Z a / inject_Z b).
Proof. intros H. unfold py_div. apply Z.eqb_neq in H. now rewrite H. Qed.

(** The guarded divisions of the summary never raise. *)
Lemma average_results_defined st :
  py_div (total_results st) (Z.max (successful_searches st) 1)
  = inr (inject_Z (total_results st) / inject_Z (Z.max (successful_searches st) 1)).
Proof. apply py_div_nonzero. lia. Qed.

Lemma latency_defined times : exists lat, latency_of times = inr lat.
Proof.
  destruct times as [|t ts]; simpl; [now eexists|].
  unfold py_divq, bindE.
  destruct (Z.eqb_spec (Z.of_nat (S (List.length ts))) 0) as [H | H]; [lia|].
  now eexists.
Qed.

Lemma summary_no_search st :
  total_searches st = 0%Z -> summary st = inl ZeroDivisionError.
Proof. intros H. unfold summary. now rewrite H. Qed.

Lemma summary_not_comparable st :
  total_searches st <> 0%Z ->
  comparable (map fst (suspended_engines st)) = false ->
  summary st = inl TypeError.
Proof.
  intros Ht Hc. unfold summary.
  rewrite !(py_div_nonzero _ Ht), average_results_defined.
  destruct (latency_defined (response_times st)) as [lat ->].
  unfold suspended_of, sorted_items. rewrite Hc.
  destruct (suspended_engines st); [discriminate | reflexivity].
Qed.

Lemma summary_completes st :
  total_searches st <> 0%Z ->
  comparable (map fst (suspended_engines st)) = true ->
  exists rep,
    summary st = inr rep
    /\ success_rate rep
       = inject_Z (successful_searches st) / inject_Z (total_searches st) * 100.
Proof.
  intros Ht Hc. unfold summary.
  rewrite !(py_div_nonzero _ Ht), average_results_defined.
  destruct (latency_defined (response_times st)) as [lat ->].
  unfold suspended_of, sorted_items. rewrite Hc.
  destruct (nonempty (suspended_engines st)); simpl; eexists; split; reflexivity.
Qed.

Lemma test_continuous_operation_unfold n :
  test_continuous_operation net n
  = bindE (summary (fst (run_loop net n stats0)))
          (fun rep => retE (fst (run_loop net n stats0), rep)).
Proof.
  unfold test_continuous_operation.
  pose proof (proj1 (run_loop_returns net n stats0)) as H.
  destruct (run_loop net n stats0) as [st [e | []]]; simpl in *;
    [discriminate | reflexivity].
Qed.

Lemma total_after_run n :
  total_searches (fst (run_loop net n stats0)) = Z.max 0 n.
Proof. now rewrite (proj2 (run_loop_returns net n stats0)). Qed.

Lemma no_search_raises n :
  (n <= 0)%Z -> test_continuous_operation net n = inl ZeroDivisionError.
Proof.
  intros Hn. rewrite test_continuous_operation_unfold, summary_no_search; auto.
  rewrite total_after_run. lia.
Qed.

(** C10: with no search to make, the first division of the summary raises
    [ZeroDivisionError]; so a run that completes its summary made at least
    one search.  With at least one search, every division is defined (the
    latency average is computed only over a non-empty sample list, the
    average of results divides by at least 1) and the summary completes as
    soon as the names of the suspended engines can be ordered. *)
Theorem summary_requires_a_search n :
  let st := fst (run_loop net n stats0) in
  (n <= 0 -> test_continuous_operation net n = inl ZeroDivisionError)%Z
  /\ (forall r, test_continuous_operation net n = inr r -> 1 <= n)%Z
  /\ (1 <= n ->
      comparable (map fst (suspended_engines st)) = true ->
      exists rep, test_continuous_operation net n = inr (st, rep))%Z
  /\ latency_of [] = inr None
  /\ (forall s, exists q,
        py_div (total_results s) (Z.max (successful_searches s) 1) = inr q).
Proof.
  intros st.
  split; [apply no_search_raises|]. split; [|split; [|split]].
  - intros r Hr. destruct (Z_le_gt_dec n 0) as [Hn | Hn]; [|lia].
    rewrite (no_search_raises Hn) in Hr. discriminate.
  - intros Hn Hc.
    destruct (@summary_completes st) as (rep & Hrep & _); auto.
    { subst st. rewrite total_after_run. lia. }
    exists rep. rewrite test_continuous_operation_unfold. fold st.
    now rewrite Hrep.
  - reflexivity.
  - intros s. eexists. apply average_results_defined.
Qed.

(** Without a search to make the process ends with status 1. *)
Lemma exit_status_no_search n : (n <= 0)%Z -> exit_status net n = 1%Z.
Proof.
  intros Hn. unfold exit_status.
  now rewrite (no_search_raises Hn).
Qed.

End Summary.

Lemma summary_requires_a_search_witness :
  let net0 := fun (_ : nat) (_ : str) =>
                Responds {| status_code := 200; text := [];
                            parsed := Some (JObj [(lit "results", JArr [])]) |} (1 # 4) in
  ContinuousOperation.test_continuous_operation net0 0 = inl ZeroDivisionError
  /\ exists rep,
       ContinuousOperation.test_continuous_operation net0 1
       = inr (fst (ContinuousOperation.run_loop net0 1 ContinuousOperation.stats0), rep).
Proof.
  intros net0. split.
  - apply (proj1 (@summary_requires_a_search net0 0)). lia.
  - apply (proj1 (proj2 (proj2 (@summary_requires_a_search net0 1)))).
    + lia.
    + reflexivity.
Defined.

(* ------------------------------------------------------------------------- *)
(** ** The exit status for any delay *)

Section Paused.

Import ContinuousOperation.

Variable net : nat -> str -> http_outcome.
Variable sleep : Exc unit.

Lemma for_each_ext S A (xs : list A) (f g : A -> St S unit) s :
  (forall x, In x xs -> forall s', f x s' = g x s') ->
  for_each xs f s = for_each xs g s.
Proof.
  revert s; induction xs as [|x xs IH]; intros s H; simpl; auto.
  unfold bindS. rewrite H by now left.
  destruct (g x s) as [s1 [e | []]]; auto.
  apply IH. intros y Hy. apply H. now right.
Qed.

(** A turn whose pause returns, or is skipped, is the turn without pause. *)
Lemma turn_without_pause n i s :
  sleep = inr tt \/ (Z.of_nat i <? n - 1)%Z = false ->
  turn net sleep n i s = iteration net i s.
Proof.
  intros H. unfold turn, bindS.
  pose proof (iteration_returns net i s) as Hr.
  destruct (iteration net i s) as [s1 [e | []]]; simpl in Hr; [discriminate|].
  destruct (Z.of_nat i <? n - 1)%Z; auto.
  destruct H as [-> | H]; [reflexivity | discriminate].
Qed.

Lemma run_loop_paused_eq n s :
  sleep = inr tt \/ (n <= 1)%Z ->
  run_loop_paused net sleep n s = run_loop net n s.
Proof.
  intros H. unfold run_loop_paused, run_loop. apply for_each_ext.
  intros i Hi s'. apply turn_without_pause.
  destruct H as [H | H]; [now left | right].
  apply Z.ltb_ge. unfold range in Hi. apply in_seq in Hi. lia.
Qed.

(** With two searches or more, a delay that [time.sleep] rejects stops the
    run after the first search. *)
Lemma run_loop_paused_raises n e :
  sleep = inl e -> (2 <= n)%Z ->
  run_loop_paused net sleep n stats0 = (fst (iteration net 0 stats0), inl e).
Proof.
  intros Hs Hn. unfold run_loop_paused, range.
  destruct (Z.to_nat n) as [|k] eqn:E; [lia|].
  cbn [seq for_each]. unfold bindS at 1. unfold turn at 1. unfold bindS at 1.
  pose proof (iteration_returns net 0 stats0) as Hr.
  destruct (iteration net 0 stats0) as [s1 [e0 | []]]; simpl in Hr; [discriminate|].
  assert (Hc : (Z.of_nat 0 <? n - 1)%Z = true) by (apply Z.ltb_lt; lia).
  rewrite Hc, Hs. reflexivity.
Qed.

Lemma summary_rate st rep :
  summary st = inr rep ->
  total_searches st <> 0%Z
  /\ success_rate rep
     = inject_Z (successful_searches st) / inject_Z (total_searches st) * 100.
Proof.
  intros H.
  destruct (Z.eq_dec (total_searches st) 0) as [Hz | Hz].
  - rewrite (@summary_no_search st Hz) in H. discriminate.
  - split; [exact Hz|].
    unfold summary in H. rewrite !(py_div_nonzero _ Hz) in H.
    unfold bindE, retE in H. split_binds H.
    injection H as <-. reflexivity.
Qed.

(** C3, amended: when [test_continuous_operation] returns, the rate
    reported is successful_searches / total_searches * 100 on the returned
    counters, and the process ends with status 1 when that rate is below 80
    and with status 0 otherwise.  When an exception leaves
    [test_continuous_operation], the process ends with status 1 whatever the
    counters.  The function returns for every run of at least one search in
    which the pause does not raise and the names of the suspended engines can
    be sorted. *)
Theorem exit_status_of_returned_run n :
  let st := fst (run_loop_paused net sleep n stats0) in
  let rate :=
    inject_Z (successful_searches st) / inject_Z (total_searches st) * 100 in
  (forall st' rep,
      test_continuous_operation_paused net sleep n = inr (st', rep) ->
      st' = st
      /\ success_rate rep = rate
      /\ (rate < 80 -> exit_status_paused net sleep n = 1%Z)
      /\ (~ rate < 80 -> exit_status_paused net sleep n = 0%Z))
  /\ (forall e,
        test_continuous_operation_paused net sleep n = inl e ->
        exit_status_paused net sleep n = 1%Z)
  /\ ((1 <= n)%Z ->
      sleep = inr tt \/ n = 1%Z ->
      comparable (map fst (suspended_engines st)) = true ->
      exists rep, test_continuous_operation_paused net sleep n = inr (st, rep)).
Proof.
  cbv zeta. split; [|split].
  - intros st' rep H.
    assert (Hst : st' = fst (run_loop_paused net sleep n stats0)
                  /\ summary st' = inr rep).
    { unfold test_continuous_operation_paused in H.
      destruct (run_loop_paused net sleep n stats0) as [s0 [e | []]];
        [discriminate|].
      unfold bindE, retE in H.
      destruct (summary s0) as [e | rep0] eqn:Es; [discriminate|].
      injection H as <- <-. auto. }
    destruct Hst as [Hst Hsum]. split; [exact Hst|]. subst st'.
    destruct (@summary_rate _ _ Hsum) as [Ht Hrate]. split; [exact Hrate|].
    unfold exit_status_paused. rewrite H. cbn [bindE fst].
    rewrite (py_div_nonzero _ Ht). cbn [bindE retE].
    destruct (Qle_bool 80 _) eqn:E.
    + apply Qle_bool_iff in E. split; intros Hlt; [|reflexivity].
      exfalso. apply (Qlt_not_le _ _ Hlt E).
    + split; intros Hlt; [reflexivity|].
      exfalso. apply Hlt. apply Qnot_le_lt. intros Hle.
      apply Qle_bool_iff in Hle. congruence.
  - intros e H. unfold exit_status_paused. now rewrite H.
  - intros Hn Hp Hc.
    assert (Heq : run_loop_paused net sleep n stats0 = run_loop net n stats0).
    { apply run_loop_paused_eq. destruct Hp as [Hp | Hp]; [now left | right; lia]. }
    unfold test_continuous_operation_paused. rewrite Heq in *.
    assert (Ht : total_searches (fst (run_loop net n stats0)) <> 0%Z).
    { rewrite total_after_run. lia. }
    destruct (@summary_completes _ Ht Hc) as (rep & Hrep & _).
    exists rep.
    pose proof (proj1 (run_loop_returns net n stats0)) as Hr.
    destruct (run_loop net n stats0) as [s0 [e | []]]; simpl in *;
      [discriminate|].
    now rewrite Hrep.
Qed.

End Paused.

Lemma exit_status_of_returned_run_witness :
  let reply := fun status =>
                 Responds {| status_code := status; text := [];
                             parsed := Some (JObj [(lit "results", JArr [])]) |} (1 # 4) in
  let net0 := fun (i : nat) (_ : str) => if (i <? 4)%nat then reply 200%Z else reply 500%Z in
  ContinuousOperation.exit_status_paused net0 (inr tt) 5 = 0%Z
  /\ ContinuousOperation.exit_status_paused (fun i q => net0 (S i) q) (inr tt) 5 = 1%Z
  /\ ContinuousOperation.exit_status_paused net0 (inl OtherException) 5 = 1%Z.
Proof.
  intros reply net0. split; [|split].
  - destruct (@exit_status_of_returned_run net0 (inr tt) 5) as (H1 & _ & H3).
    destruct H3 as [rep Hrep]; [lia | now left | reflexivity |].
    destruct (H1 _ _ Hrep) as (_ & _ & _ & Hge).
    apply Hge. intros Hlt. vm_compute in Hlt. discriminate Hlt.
  - destruct (@exit_status_of_returned_run (fun i q => net0 (S i) q) (inr tt) 5)
      as (H1 & _ & H3).
    destruct H3 as [rep Hrep]; [lia | now left | reflexivity |].
    destruct (H1 _ _ Hrep) as (_ & _ & Hlt & _).
    apply Hlt. reflexivity.
  - apply (proj1 (proj2 (@exit_status_of_returned_run net0 (inl OtherException) 5))
             OtherException).
    reflexivity.
Defined.

(** C3 as stated fails: one search, answered by an HTTP 200 reply that
    names a suspended engine [null] and another "brave".  The search is a
    success, so the rate is 100; the two names cannot be sorted, [sorted]
    raises [TypeError] on line 143, the last clause of the script catches it
    and the process ends with status 1. *)
Lemma unsortable_names_exit_one :
  let body :=
    JObj [(lit "results", JArr []);
          (lit "unresponsive_engines",
           JArr [JArr [JNull; JStr (lit "timeout")];
                 JArr [JStr (lit "brave"); JStr (lit "timeout")]])] in
  let net0 := fun (_ : nat) (_ : str) =>
                Responds {| status_code := 200; text := [];
                            parsed := Some body |} (1 # 4) in
  let st := fst (ContinuousOperation.run_loop_paused net0 (inr tt) 1
                   ContinuousOperation.stats0) in
  ContinuousOperation.successful_searches st = 1%Z
  /\ ContinuousOperation.total_searches st = 1%Z
  /\ ~ (inject_Z (ContinuousOperation.successful_searches st)
        / inject_Z (ContinuousOperation.total_searches st) * 100 < 80)
  /\ ContinuousOperation.exit_status_paused net0 (inr tt) 1 = 1%Z.
Proof.
  repeat split. intros H. vm_compute in H. discriminate H.
Qed.

(* ------------------------------------------------------------------------- *)
(** ** Malformed replies *)

(** C2, evaluated on the code: the backend answers a search with HTTP 200
    and the body [null].  [SearXNGClient.search] returns the parsed [None]
    as if it were a result dict; in [demo_api] the test of line 95 then
    raises [TypeError], which nothing catches: the remaining queries are not
    run and the process ends with status 1.  The two sibling scripts recover
    from the same reply inside their [except Exception]: the continuous run
    counts a failure and goes on, [search_grant_google] returns no link. *)
Theorem null_reply_stops_demo :
  let reply := {| status_code := 200; text := lit "null"; parsed := Some JNull |} in
  let session := fun (_ : list (str * json)) => Responds reply (1 # 10) in
  let net0 := fun (_ : nat) (_ : str) => Responds reply (1 # 10) in
  ApiDemo.search session (lit "python programming") ApiDemo.demo_kwargs = inr JNull
  /\ ApiDemo.demo_api session (Raises ConnectionError) = inl TypeError
  /\ ApiDemo.demo_exit_status session (Raises ConnectionError) = 1%Z
  /\ snd (ContinuousOperation.iteration net0 0 ContinuousOperation.stats0) = inr tt
  /\ ContinuousOperation.failed_searches
       (fst (ContinuousOperation.iteration net0 0 ContinuousOperation.stats0)) = 1%Z
  /\ GrantLinks.search_grant_google net0 0 (lit "Fulbright grant") = [].
Proof. repeat split. Qed.

(* ------------------------------------------------------------------------- *)
(** ** Worked examples *)

Example clean_grant_name_examples :
  GrantLinks.clean_grant_name (lit "  NSF Career Grant ") = lit "NSF Career Grant"
  /\ GrantLinks.clean_grant_name (lit "Research grant program") = lit "Research grant program"
  /\ GrantLinks.clean_grant_name (lit "Fulbright") = lit "Fulbright grant"
  /\ GrantLinks.clean_grant_name (lit "") = lit " grant".
Proof. repeat split. Qed.

(** A record with two links: the first goes to the best-result file, both go
    to the full file; a header-like record and an empty one are skipped. *)
Example main_two_links :
  let body :=
    JObj [(lit "items",
           JArr [JObj [(lit "link", JStr (lit "https://a.example"))];
                 JObj [(lit "title", JStr (lit "no link"))];
                 JObj [(lit "link", JStr (lit "https://b.example"))]])] in
  let net0 := fun (_ : nat) (_ : str) =>
                Responds {| status_code := 200; text := []; parsed := Some body |} (1 # 10) in
  let rows := [[(lit "grant_name", Some (lit "grant_name"))];
               [(lit "grant_name", Some (lit "   "))];
               [(lit "grant_name", Some (lit "Fulbright"))]] in
  GrantLinks.script net0 true (Some rows)
  = (0%Z,
     Some {| GrantLinks.out_csv :=
               [GrantLinks.header;
                [JStr (lit "Fulbright"); JStr (lit "Fulbright grant");
                 JStr (lit "https://a.example")]];
             GrantLinks.out_csv_full :=
               [GrantLinks.header;
                [JStr (lit "Fulbright"); JStr (lit "Fulbright grant");
                 JStr (lit "https://a.example")];
                [JStr (lit "Fulbright"); JStr (lit "Fulbright grant");
                 JStr (lit "https://b.example")]];
             GrantLinks.query_count := 1 |}).
Proof. reflexivity. Qed.

(** Engines with equal counts stay in the order of the counter. *)
Example sorted_engines_example :
  ContinuousOperation.sorted_engines
    [(JStr (lit "brave"), 2%Z); (JStr (lit "google"), 5%Z);
     (JStr (lit "bing"), 2%Z); (JStr (lit "duckduckgo"), 5%Z)]
  = [(JStr (lit "google"), 5%Z); (JStr (lit "duckduckgo"), 5%Z);
     (JStr (lit "brave"), 2%Z); (JStr (lit "bing"), 2%Z)].
Proof. reflexivity. Qed.

(** Two well-formed replies and a timeout. *)
Example run_three_searches :
  let body :=
    JObj [(lit "results",
           JArr [JObj [(lit "engines", JArr [JStr (lit "google"); JStr (lit "bing")])];
                 JObj [(lit "engines", JArr [JStr (lit "bing")])]]);
          (lit "unresponsive_engines",
           JArr [JArr [JStr (lit "brave"); JStr (lit "timeout")]])] in
  let net0 := fun (i : nat) (_ : str) =>
                if (i =? 1)%nat then Raises Timeout
                else Responds {| status_code := 200; text := [];
                                 parsed := Some body |} (1 # 2) in
  fst (ContinuousOperation.run_loop net0 3 ContinuousOperation.stats0)
  = {| ContinuousOperation.total_searches := 3;
       ContinuousOperation.successful_searches := 2;
       ContinuousOperation.failed_searches := 1;
       ContinuousOperation.total_results := 4;
       ContinuousOperation.engines_used :=
         [(JStr (lit "google"), 2%Z); (JStr (lit "bing"), 4%Z)];
       ContinuousOperation.suspended_engines := [(JStr (lit "brave"), 2%Z)];
       ContinuousOperation.response_times := [1 # 2; 1 # 2] |}
  /\ ContinuousOperation.exit_status net0 3 = 1%Z.
Proof. split; reflexivity. Qed.

(* ========================================================================= *)
(** * Further properties of the three scripts *)

(* ------------------------------------------------------------------------- *)
(** ** The normalizer and the output file names *)

Section NormalizerMore.

Import GrantLinks.

(** X1: the normalized query always passes the test of line 29: it ends
    with the term or holds it between two spaces. *)
Theorem clean_grant_name_has_term q :
  endswith (lower (clean_grant_name q)) (lit "grant")
  || contains (lower (clean_grant_name q)) (lit " grant ") = true.
Proof.
  rewrite clean_grant_name_cases.
  destruct (endswith (lower (strip q)) (lit "grant")
            || contains (lower (strip q)) (lit " grant ")) eqn:E.
  - exact E.
  - now rewrite endswith_app_grant.
Qed.

Lemma app_grant_not_nil (s : str) : s ++ lit " grant" <> [].
Proof. destruct s; discriminate. Qed.

(** X2: the normalized query is never empty, and when the name has a
    visible character it carries no whitespace at either end. *)
Theorem clean_grant_name_trimmed q :
  clean_grant_name q <> []
  /\ (strip q <> [] -> strip (clean_grant_name q) = clean_grant_name q).
Proof.
  rewrite clean_grant_name_cases.
  destruct (endswith (lower (strip q)) (lit "grant")
            || contains (lower (strip q)) (lit " grant ")) eqn:E.
  - split.
    + intros H. rewrite H in E. discriminate E.
    + intros _. apply strip_idem.
  - split.
    + apply app_grant_not_nil.
    + apply strip_app_grant.
Qed.

Lemma clean_grant_name_trimmed_witness :
  strip (clean_grant_name (lit "  Fulbright scholar ")) 
  = clean_grant_name (lit "  Fulbright scholar ").
Proof.
  apply (proj2 (clean_grant_name_trimmed (lit "  Fulbright scholar "))).
  vm_compute. discriminate.
Defined.

Lemma replace_from_absent s old new :
  contains s old = false -> replace_from 0 s old new = s.
Proof.
  induction s as [|c s IH]; simpl; auto.
  intros H. apply orb_false_iff in H. destruct H as [H1 H2].
  simpl in H1. rewrite H1. now rewrite IH.
Qed.

(** X3: an output name that does not contain ".csv" is left as it is, so
    both output files are opened under the same name. *)
Theorem output_file_full_without_csv name :
  contains name (lit ".csv") = false -> output_file_full name = name.
Proof. intros H. unfold output_file_full, replace. simpl. now apply replace_from_absent. Qed.

Lemma output_file_full_without_csv_witness :
  output_file_full (lit "links.txt") = lit "links.txt".
Proof. apply output_file_full_without_csv. reflexivity. Defined.

(** X4: a name made of a dot-free stem and ".csv" gets "_full" before the
    extension. *)
Theorem output_file_full_of_stem stem :
  Forall (fun c => c <> "."%char) stem ->
  output_file_full (stem ++ lit ".csv") = stem ++ lit "_full.csv".
Proof.
  unfold output_file_full, replace. simpl.
  induction 1 as [|c stem Hc Hs IH].
  - reflexivity.
  - cbn [app replace_from startswith lit list_ascii_of_string].
    apply Ascii.eqb_neq in Hc. rewrite Ascii.eqb_sym, Hc. simpl.
    f_equal. exact IH.
Qed.

Lemma output_file_full_of_stem_witness :
  output_file_full (lit "grant_links_discovered_google.csv")
  = lit "grant_links_discovered_google_full.csv".
Proof.
  apply (@output_file_full_of_stem (lit "grant_links_discovered_google")).
  repeat constructor; discriminate.
Defined.

End NormalizerMore.

(* ------------------------------------------------------------------------- *)
(** ** Reasoning about computations over a store *)

Section Preserves.

Variables S : Type.
Variable P : S -> Prop.

Lemma preserves_ret A (a : A) : preserves P (retS a).
Proof. now intros s. Qed.

Lemma preserves_raise A e : preserves P (@raiseS S A e).
Proof. now intros s. Qed.

Lemma preserves_lift A (m : Exc A) : preserves P (liftE m).
Proof. now intros s. Qed.

Lemma preserves_read A (f : S -> A) : preserves P (read f).
Proof. now intros s. Qed.

Lemma preserves_modify (g : S -> S) :
  (forall s, P s -> P (g s)) -> preserves P (modify g).
Proof. intros H s; apply H. Qed.

Lemma preserves_bind A B (m : St S A) (k : A -> St S B) :
  preserves P m -> (forall a, preserves P (k a)) -> preserves P (bindS m k).
Proof.
  intros Hm Hk s Hs. unfold bindS.
  specialize (Hm s Hs). destruct (m s) as [s' [e | a]]; simpl in *; auto.
  now apply Hk.
Qed.

Lemma preserves_for_each A (xs : list A) (body : A -> St S unit) :
  (forall x, preserves P (body x)) -> preserves P (for_each xs body).
Proof.
  intros H; induction xs as [|x xs IH]; simpl.
  - apply preserves_ret.
  - apply preserves_bind; auto.
Qed.

Lemma preserves_fold_each A B (xs : list A) (body : A -> B -> St S B) acc :
  (forall x b, preserves P (body x b)) -> preserves P (fold_each xs acc body).
Proof.
  intros H; revert acc; induction xs as [|x xs IH]; intros acc; simpl.
  - apply preserves_ret.
  - apply preserves_bind; auto.
Qed.

Lemma preserves_try_except A (body : St S A) handler :
  preserves P body ->
  (forall e h, handler e = Some h -> preserves P h) ->
  preserves P (try_except body handler).
Proof.
  intros Hb Hh s Hs. unfold try_except.
  specialize (Hb s Hs). destruct (body s) as [s' [e | a]]; simpl in *; auto.
  destruct (handler e) as [h|] eqn:E; simpl; auto.
  now apply (Hh e h E).
Qed.

End Preserves.

Lemma for_each_app S A (xs ys : list A) (body : A -> St S unit) s :
  for_each (xs ++ ys) body s
  = match for_each xs body s with
    | (s', inr _) => for_each ys body s'
    | (s', inl e) => (s', inl e)
    end.
Proof.
  revert s; induction xs as [|x xs IH]; intros s; simpl; auto.
  unfold bindS. destruct (body x s) as [s1 [e | []]]; auto.
Qed.

(* ------------------------------------------------------------------------- *)
(** ** The batch runner of search_grant_links_google.py *)

Section BatchMore.

Import GrantLinks.

Variable net : nat -> str -> http_outcome.

Lemma mapE_get_link items :
  forallb is_obj items = true ->
  mapE (fun item => get item (lit "link") (JStr [])) items
  = inr (map link_of items).
Proof.
  induction items as [|item items IH]; [reflexivity|].
  intros H. cbn [forallb] in H. apply andb_true_iff in H. destruct H as [Ho Hs].
  destruct item; try discriminate Ho.
  cbn [mapE]. rewrite (IH Hs). reflexivity.
Qed.

(** X11: [search_grant_google] never returns an empty link: whatever the
    backend does, every link it returns is a true value (no empty string, no
    null, no zero). *)
Theorem search_grant_google_links_truthy n q :
  Forall (fun link => truthy link = true) (search_grant_google net n q).
Proof.
  unfold search_grant_google.
  destruct (search_grant_google_try net n q) as [e | links] eqn:E; [constructor|].
  unfold search_grant_google_try, bindE, retE in E.
  destruct (requests_result _) as [e | r]; [discriminate|].
  destruct (status_code r =? 200)%Z.
  - destruct (response_json r) as [e | data]; [discriminate|].
    destruct (get data _ _) as [e | items]; [discriminate|].
    destruct (truthy items).
    + destruct (iter items) as [e | each]; [discriminate|].
      destruct (mapE _ each) as [e | ls]; [discriminate|].
      injection E as <-. apply Forall_forall. intros x Hx.
      now apply filter_In in Hx.
    + injection E as <-. constructor.
  - injection E as <-. constructor.
Qed.

(** X5: on an HTTP 200 reply whose body is a dict with a list of dicts
    under "items", the client returns the links of the items in the order
    of the reply, without those that are missing or empty. *)
Theorem search_grant_google_well_formed n q r t kv items :
  net n q = Responds r t ->
  status_code r = 200%Z ->
  parsed r = Some (JObj kv) ->
  assoc (lit "items") kv = Some (JArr items) ->
  forallb is_obj items = true ->
  search_grant_google net n q = filter truthy (map link_of items).
Proof.
  intros E Hs Hp Hi Ho.
  unfold search_grant_google, search_grant_google_try.
  rewrite E. cbn [requests_result bindE retE]. rewrite Hs, Z.eqb_refl.
  unfold response_json. rewrite Hp. cbn [bindE retE get]. rewrite Hi.
  cbn [truthy]. destruct items as [|item items]; [reflexivity|].
  cbn [nonempty iter bindE retE]. rewrite (mapE_get_link _ Ho). reflexivity.
Qed.

Lemma for_each_writerow_full (f : json -> csv_row) links s :
  for_each links (fun link => writerow_full (f link)) s
  = ({| out_csv := out_csv s;
        out_csv_full := out_csv_full s ++ map f links;
        query_count := query_count s |}, inr tt).
Proof.
  revert s; induction links as [|l links IH]; intros s.
  - simpl. unfold retS. destruct s; simpl. now rewrite app_nil_r.
  - cbn [for_each]. unfold bindS, writerow_full at 1, modify.
    rewrite IH. simpl. now rewrite <- app_assoc.
Qed.

Lemma process_row_unreadable row s e :
  read_grant_name row = inl e -> process_row net row s = (s, inl e).
Proof. intros H. unfold process_row, bindS, liftE. now rewrite H. Qed.

Lemma process_row_skipped row s g :
  read_grant_name row = inr g -> skipped g = true ->
  process_row net row s = (s, inr tt).
Proof. intros H Hk. unfold process_row, bindS, liftE. now rewrite H, Hk. Qed.

Lemma process_row_searched row s g :
  read_grant_name row = inr g ->
  skipped g = false ->
  let q := clean_grant_name g in
  let links := search_grant_google net (query_count s) q in
  process_row net row s
  = ({| out_csv := out_csv s ++ [[JStr g; JStr q; hd (JStr []) links]];
        out_csv_full := out_csv_full s ++ map (fun l => [JStr g; JStr q; l]) links;
        query_count := S (query_count s) |}, inr tt).
Proof.
  intros Hg Hk q links.
  unfold process_row, bindS, liftE, read. rewrite Hg, Hk.
  fold q. cbn [fst snd]. unfold count_query, modify. cbn [query_count].
  fold links. destruct links as [|top links'].
  - unfold writerow, modify. simpl. now rewrite app_nil_r.
  - unfold writerow at 1, modify.
    rewrite (for_each_writerow_full (fun l => [JStr g; JStr q; l])).
    reflexivity.
Qed.

Lemma read_grant_name_error row e :
  read_grant_name row = inl e -> e = AttributeError.
Proof.
  unfold read_grant_name. destruct (row_get _ _ _); [discriminate|].
  now intros [= <-].
Qed.

End BatchMore.

Section BatchRun.

Import GrantLinks.

Variable net : nat -> str -> http_outcome.

Lemma is_searched_true row :
  is_searched row = true ->
  exists g, read_grant_name row = inr g /\ skipped g = false.
Proof.
  unfold is_searched. destruct (read_grant_name row) as [e | g]; [discriminate|].
  intros H. exists g. split; auto. now apply negb_true_iff.
Qed.

Lemma is_searched_false row :
  readable row = true -> is_searched row = false ->
  exists g, read_grant_name row = inr g /\ skipped g = true.
Proof.
  unfold is_searched, readable.
  destruct (read_grant_name row) as [e | g]; [discriminate|].
  intros _ H. exists g. split; auto. now apply negb_false_iff.
Qed.

Lemma main_loop_returns rows s :
  Forall (fun row => readable row = true) rows ->
  snd (main_loop net rows s) = inr tt.
Proof.
  intros H; revert s; induction H as [|row rows Hr Hs IH]; intros s; auto.
  unfold main_loop in *. cbn [for_each]. unfold bindS.
  destruct (is_searched row) eqn:E.
  - destruct (is_searched_true row E) as (g & Hg & Hk).
    rewrite (process_row_searched net row s Hg Hk). apply IH.
  - destruct (is_searched_false row Hr E) as (g & Hg & Hk).
    rewrite (process_row_skipped net row s Hg Hk). apply IH.
Qed.

(** X7: when the loop reaches the end of the input without an exception,
    the number of rows handed to the best-result writer and the number of
    requests made both equal the number of records that are not skipped. *)
Theorem main_loop_counts rows s :
  snd (main_loop net rows s) = inr tt ->
  let k := List.length (filter is_searched rows) in
  let s' := fst (main_loop net rows s) in
  List.length (out_csv s') = (List.length (out_csv s) + k)%nat
  /\ query_count s' = (query_count s + k)%nat.
Proof.
  revert s; induction rows as [|row rows IH]; intros s H; cbv zeta.
  - simpl. lia.
  - unfold main_loop in *. cbn [for_each filter] in *. unfold bindS in *.
    destruct (read_grant_name row) as [e | g] eqn:Hg.
    + rewrite (process_row_unreadable net row s Hg) in H. discriminate H.
    + assert (Hs : is_searched row = negb (skipped g)).
      { unfold is_searched. now rewrite Hg. }
      rewrite Hs. destruct (skipped g) eqn:Hk; cbn [negb].
      * rewrite (process_row_skipped net row s Hg Hk) in *. now apply IH.
      * rewrite (process_row_searched net row s Hg Hk) in *.
        specialize (IH _ H). cbv zeta in IH. destruct IH as [H2 H3].
        rewrite H2, H3.
        cbn [out_csv query_count List.length]. rewrite length_app. simpl. lia.
Qed.

End BatchRun.

Lemma main_loop_counts_witness :
  let net0 := fun (_ : nat) (_ : str) => Raises ConnectionError in
  let rows := [[(lit "grant_name", Some (lit "grant_name"))];
               [(lit "grant_name", Some (lit "Fulbright"))];
               [(lit "id", Some (lit "7"))];
               [(lit "grant_name", Some (lit "Marie Curie grant"))]] in
  let s' := fst (GrantLinks.main_loop net0 rows GrantLinks.opened) in
  List.length (GrantLinks.out_csv s') = 3%nat
  /\ GrantLinks.query_count s' = 2%nat.
Proof.
  intros net0 rows.
  apply (@main_loop_counts net0 rows GrantLinks.opened).
  reflexivity.
Defined.

Section BatchInvariants.

Import GrantLinks.

Variable net : nat -> str -> http_outcome.

(** Split on what the record is, rewriting the turn of the loop. *)
Ltac row_cases row s :=
  let e := fresh "e" in
  let g := fresh "g" in
  let E := fresh "E" in
  let K := fresh "K" in
  destruct (read_grant_name row) as [e | g] eqn:E;
  [ rewrite (process_row_unreadable net row s E)
  | destruct (skipped g) eqn:K;
    [ rewrite (process_row_skipped net row s E K)
    | rewrite (process_row_searched net row s E K) ] ].

(** X8: a record whose name cell is missing (a line shorter than the
    header) stops the run: the records after it are not processed, the files
    hold what the records before it produced, and the process ends with
    status 1. *)
Theorem short_row_stops_run ok bad rest :
  Forall (fun row => readable row = true) ok ->
  readable bad = false ->
  main_loop net (ok ++ bad :: rest) opened
  = (fst (main_loop net ok opened), inl AttributeError)
  /\ script net true (Some (ok ++ bad :: rest))
     = (1%Z, Some (fst (main_loop net ok opened))).
Proof.
  intros Hok Hbad.
  assert (H : main_loop net (ok ++ bad :: rest) opened
              = (fst (main_loop net ok opened), inl AttributeError)).
  { pose proof (main_loop_returns net opened Hok) as Hr.
    unfold main_loop in *. rewrite for_each_app.
    destruct (for_each ok (process_row net) opened) as [s1 [e | []]];
      simpl in Hr; [discriminate|].
    cbn [for_each fst]. unfold bindS.
    unfold readable in Hbad.
    destruct (read_grant_name bad) as [e | g] eqn:E; [|discriminate].
    rewrite (process_row_unreadable net bad s1 E).
    now rewrite (read_grant_name_error bad E). }
  split; [exact H|].
  unfold script, main. cbn [negb]. now rewrite H.
Qed.

Lemma process_row_best_in_full row : preserves best_in_full (process_row net row).
Proof.
  intros s Hs. row_cases row s; cbn [fst]; auto.
  intros r Hr. cbn [out_csv out_csv_full] in *.
  apply in_app_or in Hr. destruct Hr as [Hr | [<- | []]].
  - destruct (Hs r Hr) as [H | H]; auto. right. apply in_or_app. now left.
  - destruct (search_grant_google net (query_count s) (clean_grant_name g))
      as [|top links]; [now left|].
    right. apply in_or_app. right. simpl. now left.
Qed.

(** X10: every row of the best-result file either has the empty link or
    is also a row of the full file. *)
Theorem best_rows_in_full rows :
  best_in_full (fst (main_loop net rows opened)).
Proof.
  unfold main_loop.
  apply (preserves_for_each (P := best_in_full)).
  - apply process_row_best_in_full.
  - intros r [<- | []]. right. now left.
Qed.

End BatchInvariants.

Lemma short_row_stops_run_witness :
  let net0 := fun (_ : nat) (_ : str) => Raises ConnectionError in
  let ok := [[(lit "id", Some (lit "1")); (lit "grant_name", Some (lit "Fulbright"))]] in
  let bad := [(lit "id", Some (lit "2")); (lit "grant_name", None)] in
  let rest := [[(lit "id", Some (lit "3")); (lit "grant_name", Some (lit "Rhodes"))]] in
  GrantLinks.script net0 true (Some (ok ++ bad :: rest))
  = (1%Z,
     Some {| GrantLinks.out_csv :=
               [GrantLinks.header;
                [JStr (lit "Fulbright"); JStr (lit "Fulbright grant"); JStr []]];
             GrantLinks.out_csv_full := [GrantLinks.header];
             GrantLinks.query_count := 1 |}).
Proof.
  intros net0 ok bad rest.
  apply (proj2 (@short_row_stops_run net0 ok bad rest
                  ltac:(repeat constructor) eq_refl)).
Defined.

(* ------------------------------------------------------------------------- *)
(** ** api_demo.py: the client and the demo *)

Section StrEq.

Lemma str_eqb_refl a : str_eqb a a = true.
Proof. induction a as [|c a IH]; simpl; auto. now rewrite Ascii.eqb_refl. Qed.

Lemma str_eqb_eq a b : str_eqb a b = true <-> a = b.
Proof.
  split; [|intros <-; apply str_eqb_refl].
  revert b; induction a as [|c a IH]; intros [|d b]; simpl; try discriminate; auto.
  intros H. apply andb_true_iff in H. destruct H as [H1 H2].
  apply Ascii.eqb_eq in H1. subst. f_equal. now apply IH.
Qed.

Lemma str_eqb_neq a b : str_eqb a b = false <-> a <> b.
Proof.
  split.
  - intros H E. apply str_eqb_eq in E. congruence.
  - intros H. destruct (str_eqb a b) eqn:E; auto.
    apply str_eqb_eq in E. contradiction.
Qed.


Lemma assoc_not_in_keys V k (kv : list (str * V)) :
  ~ In k (map fst kv) -> assoc k kv = None.
Proof.
  induction kv as [|[k' v] kv IH]; simpl; auto.
  intros H. destruct (str_eqb k k') eqn:E.
  - apply str_eqb_eq in E. subst. exfalso. apply H. now left.
  - apply IH. intros Hin. apply H. now right.
Qed.

End StrEq.

Section Params.

Import ApiDemo.

Lemma assoc_dict_set_same k v d : assoc k (dict_set k v d) = Some v.
Proof.
  induction d as [|[k' v'] d IH]; simpl.
  - now rewrite str_eqb_refl.
  - destruct (str_eqb k k') eqn:E; simpl; now rewrite E.
Qed.

Lemma assoc_dict_set_other k k' v d :
  k' <> k -> assoc k' (dict_set k v d) = assoc k' d.
Proof.
  intros Hne. induction d as [|[k1 v1] d IH]; simpl.
  - apply str_eqb_neq in Hne. now rewrite Hne.
  - destruct (str_eqb k k1) eqn:E; simpl.
    + apply str_eqb_eq in E. subst k1.
      apply str_eqb_neq in Hne. now rewrite Hne.
    + now rewrite IH.
Qed.

Lemma fold_dict_set_absent k kw d :
  assoc k kw = None ->
  assoc k (fold_left (fun d p => dict_set (fst p) (snd p) d) kw d) = assoc k d.
Proof.
  revert d; induction kw as [|[k1 v1] kw IH]; intros d; simpl; auto.
  destruct (str_eqb k k1) eqn:E; [discriminate|].
  intros H. rewrite (IH _ H). apply assoc_dict_set_other.
  now apply str_eqb_neq.
Qed.

Lemma fold_dict_set_present k v kw d :
  NoDup (map fst kw) ->
  assoc k kw = Some v ->
  assoc k (fold_left (fun d p => dict_set (fst p) (snd p) d) kw d) = Some v.
Proof.
  intros Hnd; revert d; induction kw as [|[k1 v1] kw IH]; intros d; simpl;
    [discriminate|].
  inversion Hnd as [|? ? Hnotin Hnd']; subst.
  destruct (str_eqb k k1) eqn:E.
  - intros [= ->]. apply str_eqb_eq in E. subst k1.
    rewrite fold_dict_set_absent by now apply assoc_not_in_keys.
    apply assoc_dict_set_same.
  - intros H. now apply IH.
Qed.

(** X12: the parameters of the request.  With keyword arguments under
    distinct names, every keyword argument is sent as given; "q" is the
    query unless a keyword argument replaces it; "format" is "json" unless
    one is given. *)
Theorem build_params_lookup query kwargs :
  NoDup (map fst kwargs) ->
  (forall k v, assoc k kwargs = Some v ->
               assoc k (build_params query kwargs) = Some v)
  /\ (assoc (lit "q") kwargs = None ->
      assoc (lit "q") (build_params query kwargs) = Some (JStr query))
  /\ (assoc (lit "format") kwargs = None ->
      assoc (lit "format") (build_params query kwargs) = Some (JStr (lit "json"))).
Proof.
  intros Hnd. unfold build_params. repeat split.
  - intros k v H. now apply fold_dict_set_present.
  - intros H. now rewrite fold_dict_set_absent.
  - intros H. rewrite fold_dict_set_absent by exact H. now rewrite H.
Qed.

End Params.

Lemma build_params_lookup_witness :
  assoc (lit "pageno")
    (ApiDemo.build_params (lit "cats") [(lit "pageno", JNum 2)]) = Some (JNum 2)
  /\ assoc (lit "q")
       (ApiDemo.build_params (lit "cats") [(lit "pageno", JNum 2)])
     = Some (JStr (lit "cats"))
  /\ assoc (lit "format")
       (ApiDemo.build_params (lit "cats") [(lit "pageno", JNum 2)])
     = Some (JStr (lit "json")).
Proof.
  destruct (@build_params_lookup (lit "cats") [(lit "pageno", JNum 2)])
    as (H1 & H2 & H3).
  - repeat constructor. intros [].
  - split; [apply H1; reflexivity|]. split; [apply H2 | apply H3]; reflexivity.
Defined.

Section DemoRun.

Import ApiDemo.

Variable session_get : list (str * json) -> http_outcome.
Variable config_get : http_outcome.

Lemma demo_format query :
  assoc (lit "format") (build_params query demo_kwargs) = Some (JStr (lit "json")).
Proof. reflexivity. Qed.


Lemma get_config_reply :
  reply_ok config_shape config_get = true ->
  (exists e, get_config config_get = inr (error_dict e))
  \/ (exists v, get_config config_get = inr v /\ config_shape v = true).
Proof.
  unfold get_config.
  destruct config_get as [e | r t].
  - unfold reply_ok, request_failed. rewrite orb_false_r. intros R.
    cbn [requests_result bindE raiseE]. rewrite R. left. now exists e.
  - unfold reply_ok, request_failed, raise_for_status, response_json.
    cbn [requests_result bindE retE].
    destruct (andb _ _); cbn [bindE raiseE retE orb is_RequestException].
    + intros _. left. now exists HTTPError.
    + destruct (parsed r) as [v|].
      * intros H. right. exists v. auto.
      * intros _. left. now exists JSONDecodeError.
Qed.

Lemma show_error_dict e :
  show_results (error_dict e) = inr tt /\ show_config (error_dict e) = inr tt.
Proof. split; reflexivity. Qed.




Lemma show_config_shape v : config_shape v = true -> show_config v = inr tt.
Proof.
  destruct v as [| | | |l|kv]; try discriminate.
  unfold config_shape. intros H.
  apply andb_true_iff in H. destruct H as [H Hcat].
  apply andb_true_iff in H. destruct H as [Herr Heng].
  apply negb_true_iff in Herr.
  unfold show_config. cbn [py_in bindE retE]. rewrite Herr.
  cbn [negb get bindE retE].
  destruct (assoc (lit "engines") kv) as [engines|].
  - destruct engines; try discriminate Heng; cbn [len bindE retE];
      (destruct (assoc (lit "categories") kv) as [cats|];
       [destruct cats; try discriminate Hcat; reflexivity | reflexivity]).
  - cbn [len bindE retE].
    destruct (assoc (lit "categories") kv) as [cats|];
      [destruct cats; try discriminate Hcat; reflexivity | reflexivity].
Qed.



(** X15: the client never raises on a reply, but its caller can: when the
    first search is answered by a JSON document that is null, a boolean or a
    number, the membership test of line 95 raises [TypeError]; the demo stops
    there and the process ends with status 1. *)
Theorem demo_api_scalar_reply r t v :
  reply_ok config_shape config_get = true ->
  session_get (build_params (lit "python programming") demo_kwargs) = Responds r t ->
  ((400 <=? status_code r) && (status_code r <? 600))%Z = false ->
  parsed r = Some v ->
  is_scalar v = true ->
  demo_api session_get config_get = inl TypeError
  /\ demo_exit_status session_get config_get = 1%Z.
Proof.
  intros Hc Hg Hst Hp Hv.
  assert (H : demo_api session_get config_get = inl TypeError).
  { unfold demo_api.
    assert (Hcfg : (config <- get_config config_get ;; show_config config)%E = inr tt).
    { destruct (get_config_reply Hc) as [[e ->] | (c & -> & Hshape)]; cbn [bindE].
      - apply show_error_dict.
      - now apply show_config_shape. }
    unfold bindE in *.
    destruct (get_config config_get) as [e | config]; [discriminate|].
    rewrite Hcfg. unfold demo_queries. cbn [iterE].
    unfold search, search_try. rewrite demo_format, Hg.
    unfold raise_for_status, response_json.
    cbn [requests_result bindE retE]. rewrite Hst, Hp.
    cbn [bindE retE is_json_format].
    change (str_eqb (lit "json") (lit "json")) with true. cbv iota.
    destruct v; try discriminate Hv; reflexivity. }
  split; [exact H|]. unfold demo_exit_status. now rewrite H.
Qed.

End DemoRun.


Lemma demo_api_scalar_reply_witness :
  let reply := {| status_code := 200; text := lit "null"; parsed := Some JNull |} in
  ApiDemo.demo_api (fun _ => Responds reply (1 # 10)) (Raises Timeout) = inl TypeError
  /\ ApiDemo.demo_exit_status (fun _ => Responds reply (1 # 10)) (Raises Timeout) = 1%Z.
Proof.
  intros reply.
  apply (@demo_api_scalar_reply (fun _ => Responds reply (1 # 10)) (Raises Timeout)
           reply (1 # 10) JNull); reflexivity.
Defined.

(* ------------------------------------------------------------------------- *)
(** ** test_continuous_operation.py: the loop *)

Section LoopMore.

Import ContinuousOperation.

Variable net : nat -> str -> http_outcome.

(** X16: the query of a turn is always one of the ten, taken in order and
    again from the first after the tenth. *)
Theorem query_of_cycles i :
  In (query_of i) queries
  /\ query_of (i + 10) = query_of i
  /\ map query_of (seq 0 10) = queries.
Proof.
  unfold query_of. change (List.length queries) with 10%nat.
  split; [|split].
  - apply nth_In. change (List.length queries) with 10%nat.
    apply Nat.mod_upper_bound. discriminate.
  - replace (i + 10)%nat with (i + 1 * 10)%nat by lia.
    now rewrite Nat.Div0.mod_add.
  - reflexivity.
Qed.

Lemma bind_lift S A B (m : Exc A) (k : A -> St S B) s :
  bindS (liftE m) k s = match m with
                        | inl e => (s, inl e)
                        | inr a => k a s
                        end.
Proof. unfold bindS, liftE. now destruct m. Qed.

Lemma bind_modify S B (g : S -> S) (k : unit -> St S B) s :
  bindS (modify g) k s = k tt (g s).
Proof. reflexivity. Qed.

Lemma track_engines_keeps X (f : stats -> X) rs :
  (forall d st, f (set_engines_used d st) = f st) ->
  keeps f (track_engines rs).
Proof.
  intros Hf. unfold track_engines, bump_engine.
  repeat first [ apply keeps_modify; intros ?; apply Hf | keeps_step ].
Qed.

Lemma track_suspended_keeps X (f : stats -> X) infos :
  (forall d st, f (set_suspended_engines d st) = f st) ->
  keeps f (track_suspended infos).
Proof.
  intros Hf. unfold track_suspended, bump_suspended.
  repeat first [ apply keeps_modify; intros ?; apply Hf | keeps_step ].
Qed.

(** After the success is counted on line 79, nothing in the [try] block
    touches the success and failure counters. *)
Lemma after_success_keeps X (f : stats -> X) data results num_results :
  (forall d st, f (set_engines_used d st) = f st) ->
  (forall d st, f (set_suspended_engines d st) = f st) ->
  (forall n st, f (add_results n st) = f st) ->
  keeps f
    (modify (add_results num_results) ;;
     each <- liftE (iter results) ;;
     engines_in_this_search <- track_engines each ;;
     unresponsive <- liftE (get data (lit "unresponsive_engines") (JArr [])) ;;
     infos <- liftE (iter unresponsive) ;;
     track_suspended infos ;;
     liftE (join_sorted engines_in_this_search))%S.
Proof.
  intros H1 H2 H3.
  apply keeps_bind; [apply keeps_modify; intros; apply H3 | intros _].
  apply keeps_bind; [apply keeps_lift | intros each].
  apply keeps_bind; [now apply track_engines_keeps | intros seen].
  apply keeps_bind; [apply keeps_lift | intros unresponsive].
  apply keeps_bind; [apply keeps_lift | intros infos].
  apply keeps_bind; [now apply track_suspended_keeps | intros _].
  apply keeps_lift.
Qed.

(** An HTTP 200 reply never counts a failure inside the [try] block, and
    counts a success unless the block raises before line 79. *)
Lemma attempt_ok_reply r t s :
  status_code r = 200%Z ->
  let res := attempt (Responds r t) s in
  failed_searches (fst res) = failed_searches s
  /\ ((successful_searches (fst res) = successful_searches s
       /\ exists e, snd res = inl e)
      \/ successful_searches (fst res) = (successful_searches s + 1)%Z).
Proof.
  intros Hs res. subst res. unfold attempt.
  rewrite bind_modify, Hs, Z.eqb_refl.
  rewrite bind_lift.
  destruct (response_json r) as [e | data]; [simpl; eauto|].
  rewrite bind_lift.
  destruct (get data (lit "results") (JArr [])) as [e | results]; [simpl; eauto|].
  rewrite bind_lift.
  destruct (len results) as [e | num_results]; [simpl; eauto|].
  rewrite bind_modify.
  split.
  - rewrite (@after_success_keeps _ failed_searches data results num_results);
      reflexivity.
  - right.
    rewrite (@after_success_keeps _ successful_searches data results num_results);
      reflexivity.
Qed.

(** What one turn does to the counters, whatever the backend answers. *)
Lemma iteration_step i s :
  let s' := fst (iteration net i s) in
  total_searches s' = (total_searches s + 1)%Z
  /\ (List.length (response_times s) <= List.length (response_times s')
      <= S (List.length (response_times s)))%nat
  /\ ((successful_searches s' = successful_searches s
       /\ failed_searches s' = (failed_searches s + 1)%Z)
      \/ (successful_searches s' = (successful_searches s + 1)%Z
          /\ List.length (response_times s') = S (List.length (response_times s))
          /\ (failed_searches s' = failed_searches s
              \/ failed_searches s' = (failed_searches s + 1)%Z))).
Proof.
  cbv zeta. split; [apply iteration_total|].
  destruct (net i (query_of i)) as [e | r t] eqn:E.
  - rewrite (@iteration_raised net i s e E). simpl. split; auto.
  - assert (Ht : List.length (response_times (fst (iteration net i s)))
                 = S (List.length (response_times s))).
    { rewrite (@iteration_samples net i s r t E), length_app. simpl. lia. }
    split; [rewrite Ht; lia|].
    destruct (Z.eq_dec (status_code r) 200) as [Hs | Hs].
    + pose proof (@attempt_ok_reply r t (add_total s) Hs) as [Hf Hc].
      revert Ht. unfold iteration. rewrite bind_modify.
      unfold try_except. rewrite E.
      destruct (attempt (Responds r t) (add_total s)) as [s1 [e | []]];
        cbn [fst snd] in *; intros Ht.
      * assert (Hh : fst (match handlers e with
                          | Some h => h s1
                          | None => (s1, inl e)
                          end) = add_failed s1).
        { unfold handlers. destruct (is_Timeout e); reflexivity. }
        rewrite Hh in *. cbn [add_failed successful_searches failed_searches
                               response_times] in *.
        destruct Hc as [[Hc _] | Hc]; [left | right]; simpl in *;
          repeat split; auto; lia.
      * destruct Hc as [[_ [e He]] | Hc]; [discriminate|].
        right. simpl in *. auto.
    + rewrite (@iteration_failed_reply net i s r t E (or_introl Hs)).
      left. simpl. auto.
Qed.

End LoopMore.

Section LoopInvariants.

Import ContinuousOperation.

Variable net : nat -> str -> http_outcome.

Lemma iteration_bounded i : preserves counters_bounded (iteration net i).
Proof.
  intros s Hs. pose proof (iteration_step net i s) as H. cbv zeta in H.
  unfold counters_bounded in *.
  destruct H as (Ht & Hl & [[H1 H2] | (H1 & H2 & [H3 | H3])]); lia.
Qed.

(** X17: whatever the backend answers, at the end of the run the counters
    satisfy 0 <= successful <= number of latency samples <= total,
    0 <= failed <= total and total <= successful + failed. *)
Theorem run_counters_bounded n :
  counters_bounded (fst (run_loop net n stats0)).
Proof.
  unfold run_loop.
  apply (preserves_for_each (P := counters_bounded)).
  - apply iteration_bounded.
  - unfold counters_bounded. simpl. lia.
Qed.

Lemma for_each_samples xs s :
  List.length (response_times (fst (for_each xs (iteration net) s)))
  = (List.length (response_times s)
     + List.length (filter (fun i => replied (net i (query_of i))) xs))%nat.
Proof.
  revert s; induction xs as [|i xs IH]; intros s.
  - simpl. lia.
  - cbn [for_each filter]. unfold bindS.
    pose proof (iteration_returns net i s) as Hr.
    destruct (iteration net i s) as [s1 [e | []]] eqn:E; simpl in Hr; [discriminate|].
    rewrite IH.
    assert (Hs1 : s1 = fst (iteration net i s)) by now rewrite E.
    destruct (net i (query_of i)) as [e | r t] eqn:O; cbn [replied].
    + rewrite Hs1, (@iteration_raised net i s e O). simpl. lia.
    + rewrite Hs1, (@iteration_samples net i s r t O), length_app. simpl. lia.
Qed.

(** X18: the run records one latency sample per reply received, whatever
    its status and body, and none for a request that raised. *)
Theorem samples_count_replies n :
  List.length (response_times (fst (run_loop net n stats0)))
  = List.length (filter (fun i => replied (net i (query_of i))) (range n)).
Proof. unfold run_loop. now rewrite for_each_samples. Qed.

End LoopInvariants.

Section WellFormedReplies.

Import ContinuousOperation.

Variable net : nat -> str -> http_outcome.









End WellFormedReplies.


(* ------------------------------------------------------------------------- *)
(** ** The two per-engine counters *)

Section Counters2.

Import ContinuousOperation.

Lemma key_eqb_sym a b : key_eqb a b = key_eqb b a.
Proof.
  destruct a, b; simpl; auto using Z.eqb_sym.
  - now destruct b, b0.
  - destruct (str_eqb s s0) eqn:E.
    + apply str_eqb_eq in E. subst. symmetry. apply str_eqb_refl.
    + symmetry. apply str_eqb_neq. apply str_eqb_neq in E. congruence.
Qed.

Lemma bump_keys_Forall (Q : json -> Prop) k d :
  Q k -> Forall (fun p => Q (fst p)) d -> Forall (fun p => Q (fst p)) (bump k d).
Proof.
  intros Hk; induction 1 as [|[k' c] d Hp Hd IH]; simpl.
  - repeat constructor. exact Hk.
  - destruct (key_eqb k k'); constructor; auto.
Qed.

Lemma bump_entries_ok k d :
  hashable k = true ->
  Forall (fun p => hashable (fst p) = true /\ (1 <= snd p)%Z) d ->
  Forall (fun p => hashable (fst p) = true /\ (1 <= snd p)%Z) (bump k d).
Proof.
  intros Hk; induction 1 as [|[k' c] d [Hh Hc] Hd IH]; simpl.
  - repeat constructor; auto. simpl. lia.
  - destruct (key_eqb k k'); constructor; simpl in *; auto. split; auto. lia.
Qed.

Lemma bump_distinct k d :
  ForallOrdPairs (fun a b => key_eqb (fst a) (fst b) = false) d ->
  ForallOrdPairs (fun a b => key_eqb (fst a) (fst b) = false) (bump k d).
Proof.
  induction 1 as [|[k' c] d Hk' Hd IH]; simpl.
  - repeat constructor.
  - destruct (key_eqb k k') eqn:E.
    + constructor; auto.
    + constructor; auto.
      apply (bump_keys_Forall (fun x => key_eqb k' x = false)); auto.
      simpl. now rewrite key_eqb_sym.
Qed.

Lemma bump_ok k d : hashable k = true -> counter_ok d -> counter_ok (bump k d).
Proof.
  intros Hk [H1 H2]. split; [now apply bump_entries_ok | now apply bump_distinct].
Qed.

Lemma bump_engine_ok engine : preserves counters_ok (bump_engine engine).
Proof.
  unfold bump_engine. destruct (hashable engine) eqn:H.
  - apply preserves_modify. intros st [H1 H2]. split; simpl; auto using bump_ok.
  - apply preserves_raise.
Qed.

Lemma bump_suspended_ok name : preserves counters_ok (bump_suspended name).
Proof.
  unfold bump_suspended. destruct (hashable name) eqn:H.
  - apply preserves_modify. intros st [H1 H2]. split; simpl; auto using bump_ok.
  - apply preserves_raise.
Qed.

Ltac preserves_step :=
  match goal with
  | |- preserves _ (bump_engine _) => apply bump_engine_ok
  | |- preserves _ (bump_suspended _) => apply bump_suspended_ok
  | |- preserves _ (retS _) => apply preserves_ret
  | |- preserves _ (raiseS _) => apply preserves_raise
  | |- preserves _ (liftE _) => apply preserves_lift
  | |- preserves _ (modify _) =>
      apply preserves_modify; let H := fresh in intros ? H; exact H
  | |- preserves _ (bindS _ _) => apply preserves_bind; [|intros ?]
  | |- preserves _ (for_each _ _) => apply preserves_for_each; intros ?
  | |- preserves _ (fold_each _ _ _) => apply preserves_fold_each; intros ? ?
  | |- preserves _ (if ?b then _ else _) => destruct b
  | |- preserves _ (match ?x with _ => _ end) => destruct x
  end.

Variable net : nat -> str -> http_outcome.

Lemma attempt_counters_ok o : preserves counters_ok (attempt o).
Proof.
  unfold attempt, track_engines, track_suspended.
  destruct o; repeat preserves_step.
Qed.

Lemma iteration_counters_ok i : preserves counters_ok (iteration net i).
Proof.
  unfold iteration. apply preserves_bind; [preserves_step | intros _].
  apply preserves_try_except; [apply attempt_counters_ok|].
  intros e h. unfold handlers.
  destruct (is_Timeout e); intros [= <-]; preserves_step.
Qed.

(** X20: the two per-engine counters stay proper dicts throughout any
    run: every key hashes, no engine is listed twice (also when one reply
    names it [1] and another [true]), and every count is at least one. *)
Theorem run_counters_ok n : counters_ok (fst (run_loop net n stats0)).
Proof.
  unfold run_loop.
  apply (preserves_for_each (P := counters_ok)).
  - apply iteration_counters_ok.
  - repeat constructor.
Qed.

(** X21: the listing of engines has min(10, number of engines) entries,
    all of them items of the counter. *)
Theorem top_engines_size d :
  List.length (top_engines_of d) = Nat.min 10 (List.length d)
  /\ incl (top_engines_of d) d.
Proof.
  unfold top_engines_of, sorted_engines. split.
  - rewrite length_firstn. now rewrite (Permutation_length (sorted_perm neg_count_lt d)).
  - intros x Hx.
    apply (Permutation_in x (sorted_perm neg_count_lt d)).
    rewrite <- (firstn_skipn 10 (sorted neg_count_lt d)).
    apply in_or_app. now left.
Qed.

End Counters2.

(* ------------------------------------------------------------------------- *)
(** ** The verdict, the exit status and the latency figures *)

Section Verdict.

Import ContinuousOperation.

Variable net : nat -> str -> http_outcome.

(** The comparison of the rate with a threshold, on the counters. *)
Lemma rate_threshold k s t :
  (0 < t)%Z ->
  Qle_bool (inject_Z k) (inject_Z s / inject_Z t * 100) = true
  <-> (k * t <= 100 * s)%Z.
Proof.
  intros Ht. rewrite Qle_bool_iff.
  destruct t as [|p|p]; try lia.
  unfold Qle, Qdiv, Qmult, Qinv, inject_Z. cbn [Qnum Qden].
  rewrite !Pos2Z.inj_mul. lia.
Qed.

Lemma summary_verdict st :
  total_searches st <> 0%Z ->
  comparable (map fst (suspended_engines st)) = true ->
  exists rep,
    summary st = inr rep
    /\ final_verdict rep
       = verdict_of (inject_Z (successful_searches st)
                     / inject_Z (total_searches st) * 100)
    /\ Permutation (suspended_listing rep) (suspended_engines st).
Proof.
  intros Ht Hc. unfold summary.
  rewrite !(py_div_nonzero _ Ht), average_results_defined.
  destruct (latency_defined (response_times st)) as [lat ->].
  unfold suspended_of, sorted_items. rewrite Hc.
  destruct (suspended_engines st) as [|p d] eqn:E; cbn [nonempty bindE retE].
  - eexists; repeat split; constructor.
  - eexists; repeat split. cbn [suspended_listing]. apply sorted_perm.
Qed.

(** X22: for a run of at least one search whose summary completes, the
    process ends with status 1 exactly when the verdict printed is the
    warning; it ends with status 0 exactly when 4 * total <= 5 * successful,
    and the verdict is "excellent" exactly when
    19 * total <= 20 * successful. *)
Theorem verdict_and_exit_status n :
  let st := fst (run_loop net n stats0) in
  (1 <= n)%Z ->
  comparable (map fst (suspended_engines st)) = true ->
  exists rep,
    test_continuous_operation net n = inr (st, rep)
    /\ (exit_status net n = 1%Z <-> final_verdict rep = Warning)
    /\ (exit_status net n = 0%Z
        <-> (4 * total_searches st <= 5 * successful_searches st)%Z)
    /\ (final_verdict rep = Excellent
        <-> (19 * total_searches st <= 20 * successful_searches st)%Z).
Proof.
  intros st Hn Hc.
  assert (Htot : total_searches st = n).
  { subst st. rewrite total_after_run. lia. }
  assert (Ht : total_searches st <> 0%Z) by lia.
  destruct (@summary_verdict st Ht Hc) as (rep & Hrep & Hv & _).
  assert (Hrun : test_continuous_operation net n = inr (st, rep)).
  { rewrite test_continuous_operation_unfold. fold st. now rewrite Hrep. }
  exists rep. split; [exact Hrun|].
  assert (Hexit : exit_status net n
                  = if Qle_bool 80 (inject_Z (successful_searches st)
                                    / inject_Z (total_searches st) * 100)
                    then 0%Z else 1%Z).
  { unfold exit_status. rewrite Hrun. cbn [bindE fst].
    now rewrite (py_div_nonzero _ Ht). }
  rewrite Hexit, Hv. unfold verdict_of.
  set (rate := inject_Z (successful_searches st)
                / inject_Z (total_searches st) * 100).
  assert (B80 : Qle_bool 80 rate = true
                <-> (4 * total_searches st <= 5 * successful_searches st)%Z).
  { change (80 : Q) with (inject_Z 80). unfold rate.
    rewrite rate_threshold by lia. lia. }
  assert (B95 : Qle_bool 95 rate = true
                <-> (19 * total_searches st <= 20 * successful_searches st)%Z).
  { change (95 : Q) with (inject_Z 95). unfold rate.
    rewrite rate_threshold by lia. lia. }
  assert (Himp : Qle_bool 95 rate = true -> Qle_bool 80 rate = true).
  { rewrite B80, B95. lia. }
  rewrite <- B80, <- B95.
  destruct (Qle_bool 80 rate), (Qle_bool 95 rate);
    try (specialize (Himp eq_refl); discriminate Himp);
    repeat split; intros H; try discriminate H; reflexivity.
Qed.

End Verdict.

Section Latency.

Import ContinuousOperation.

Lemma Qmin_cases x y : Qmin x y = x \/ Qmin x y = y.
Proof. unfold Qmin, GenericMinMax.gmin. destruct (x ?= y); auto. Qed.

Lemma Qmax_cases x y : Qmax x y = x \/ Qmax x y = y.
Proof. unfold Qmax, GenericMinMax.gmax. destruct (x ?= y); auto. Qed.

Lemma fold_min_spec ts : forall a,
  In (fold_left Qmin ts a) (a :: ts)
  /\ fold_left Qmin ts a <= a
  /\ Forall (fun t => fold_left Qmin ts a <= t) ts.
Proof.
  induction ts as [|x ts IH]; intros a; cbn [fold_left].
  - repeat split; [now left | apply Qle_refl | constructor].
  - destruct (IH (Qmin a x)) as (Hin & Hle & Hall).
    repeat split.
    + destruct Hin as [Hin | Hin]; [|right; now right].
      rewrite <- Hin. destruct (Qmin_cases a x) as [-> | ->];
        [now left | right; now left].
    + eapply Qle_trans; [exact Hle | apply Q.le_min_l].
    + constructor; auto. eapply Qle_trans; [exact Hle | apply Q.le_min_r].
Qed.

Lemma fold_max_spec ts : forall a,
  In (fold_left Qmax ts a) (a :: ts)
  /\ a <= fold_left Qmax ts a
  /\ Forall (fun t => t <= fold_left Qmax ts a) ts.
Proof.
  induction ts as [|x ts IH]; intros a; cbn [fold_left].
  - repeat split; [now left | apply Qle_refl | constructor].
  - destruct (IH (Qmax a x)) as (Hin & Hle & Hall).
    repeat split.
    + destruct Hin as [Hin | Hin]; [|right; now right].
      rewrite <- Hin. destruct (Qmax_cases a x) as [-> | ->];
        [now left | right; now left].
    + eapply Qle_trans; [apply Q.le_max_l | exact Hle].
    + constructor; auto. eapply Qle_trans; [apply Q.le_max_r | exact Hle].
Qed.

(** X23: with at least one latency sample the summary has its three
    latency figures; the minimum and the maximum are samples, and every
    sample lies between them.  Without a sample no figure is computed and
    nothing is divided. *)
Theorem latency_min_max times :
  match times with
  | [] => latency_of times = inr None
  | _ :: _ =>
      exists avg mn mx,
        latency_of times = inr (Some (avg, mn, mx))
        /\ In mn times /\ In mx times
        /\ Forall (fun t => mn <= t /\ t <= mx) times
  end.
Proof.
  destruct times as [|t ts]; [reflexivity|].
  destruct (latency_defined (t :: ts)) as [lat Hlat].
  unfold latency_of in *. unfold bindE in *.
  destruct (py_divq _ _) as [e | avg]; [discriminate|].
  exists avg, (fold_left Qmin ts t), (fold_left Qmax ts t).
  destruct (fold_min_spec ts t) as (Hmin_in & Hmin_le & Hmin_all).
  destruct (fold_max_spec ts t) as (Hmax_in & Hmax_le & Hmax_all).
  repeat split; auto.
  constructor; [split; assumption|].
  rewrite Forall_forall in *. intros x Hx. split; auto.
Qed.

(** X24: when the summary completes, the listing of suspended engines is a
    rearrangement of the items of the counter: no engine is dropped or
    repeated. *)
Theorem suspended_listing_perm st rep :
  summary st = inr rep ->
  Permutation (suspended_listing rep) (suspended_engines st).
Proof.
  unfold summary, bindE, retE. intros H. split_binds H.
  injection H as <-. cbn [suspended_listing].
  match goal with
  | Hs : suspended_of _ = inr ?l |- _ =>
      unfold suspended_of, sorted_items, retE in Hs;
      destruct (suspended_engines st) as [|p d] eqn:E; cbn [nonempty] in Hs
  end.
  - match goal with Hs : inr _ = inr _ |- _ => injection Hs as <- end. constructor.
  - destruct (comparable _); [|discriminate].
    match goal with Hs : inr _ = inr _ |- _ => injection Hs as <- end.
    exact (sorted_perm (fun a b => key_ltb (fst a) (fst b)) (p :: d)).
Qed.

End Latency.

Lemma suspended_listing_perm_witness :
  let st := {| ContinuousOperation.total_searches := 2;
               ContinuousOperation.successful_searches := 2;
               ContinuousOperation.failed_searches := 0;
               ContinuousOperation.total_results := 0;
               ContinuousOperation.engines_used := [];
               ContinuousOperation.suspended_engines :=
                 [(JStr (lit "brave"), 1%Z); (JStr (lit "bing"), 2%Z)];
               ContinuousOperation.response_times := [1 # 2; 1 # 3] |} in
  exists rep,
    ContinuousOperation.summary st = inr rep
    /\ ContinuousOperation.suspended_listing rep
       = [(JStr (lit "bing"), 2%Z); (JStr (lit "brave"), 1%Z)]
    /\ Permutation (ContinuousOperation.suspended_listing rep)
                   (ContinuousOperation.suspended_engines st).
Proof.
  intros st. eexists. split; [reflexivity|]. split; [reflexivity|].
  apply (@suspended_listing_perm st). reflexivity.
Defined.

Lemma verdict_and_exit_status_witness :
  let reply := fun status =>
                 Responds {| status_code := status; text := [];
                             parsed := Some (JObj [(lit "results", JArr [])]) |} (1 # 4) in
  let net0 := fun (i : nat) (_ : str) => if (i <? 19)%nat then reply 200%Z else reply 500%Z in
  exists rep,
    ContinuousOperation.test_continuous_operation net0 20
    = inr (fst (ContinuousOperation.run_loop net0 20 ContinuousOperation.stats0), rep)
    /\ ContinuousOperation.final_verdict rep = ContinuousOperation.Excellent
    /\ ContinuousOperation.exit_status net0 20 = 0%Z.
Proof.
  intros reply net0.
  destruct (@verdict_and_exit_status net0 20) as (rep & Hrun & _ & H0 & Hex);
    [lia | reflexivity |].
  exists rep. split; [exact Hrun|]. split.
  - apply Hex. vm_compute. discriminate.
  - apply H0. vm_compute. discriminate.
Defined.

Lemma search_grant_google_well_formed_witness :
  let items := [JObj [(lit "link", JStr (lit "https://a.example"))];
                JObj [(lit "title", JStr (lit "untitled"))];
                JObj [(lit "link", JStr [])];
                JObj [(lit "link", JStr (lit "https://b.example"))]] in
  let reply := {| status_code := 200; text := [];
                  parsed := Some (JObj [(lit "items", JArr items)]) |} in
  GrantLinks.search_grant_google (fun _ _ => Responds reply (1 # 5)) 0 (lit "Fulbright grant")
  = [JStr (lit "https://a.example"); JStr (lit "https://b.example")].
Proof.
  intros items reply.
  apply (@search_grant_google_well_formed (fun _ _ => Responds reply (1 # 5))
           0%nat (lit "Fulbright grant") reply (1 # 5)
           [(lit "items", JArr items)] items); reflexivity.
Defined.
